(** * Verification of sims/vcs/run_parallel_tests.py

    A shallow embedding of the parallel test runner: the log classifier
    ([check_log_for_pattern] and the decision block of [run_single_test]),
    the process supervisor, the worker body, [collect_tests], the result
    loop of [main] and the signal handler [cleanup_handler]. *)

From stdpp Require Import base list gmap sets strings sorting.
From Stdlib Require Import ZArith Ascii String Lia.

Open Scope Z_scope.

(* ------------------------------------------------------------------ *)
(** ** Text helpers (ASCII strings, as the log lines are decoded text) *)
(* ------------------------------------------------------------------ *)
Module Text.

(** ASCII lower-casing, used for [str.lower()] and [re.IGNORECASE]. *)
Definition lower_ascii (c : ascii) : ascii :=
  let n := nat_of_ascii c in
  if (Nat.leb 65 n && Nat.leb n 90)%bool then ascii_of_nat (n + 32) else c.

Fixpoint lower (s : string) : string :=
  match s with
  | EmptyString => EmptyString
  | String c s' => String (lower_ascii c) (lower s')
  end.

(** [find_after p s]: the rest of [s] after the leftmost occurrence of
    [p], or [None] when [p] does not occur in [s]. *)
Fixpoint find_after (p s : string) : option string :=
  if String.prefix p s then Some (substring (String.length p) (String.length s) s)
  else match s with
       | EmptyString => None
       | String _ s' => find_after p s'
       end.

(** Python's [sub in s]. *)
Definition contains (sub s : string) : bool :=
  match find_after sub s with Some _ => true | None => false end.

(** Search for [p1 .* p2 .* ... .* pn] inside one line (a line holds no
    newline, so [.] matches every character of it).  Taking the leftmost
    occurrence of each piece leaves the longest rest for the next one. *)
Fixpoint seq_search (ps : list string) (s : string) : bool :=
  match ps with
  | [] => true
  | p :: ps' =>
      match find_after p s with
      | Some rest => seq_search ps' rest
      | None => false
      end
  end.

End Text.

(* ------------------------------------------------------------------ *)
(** ** Log classifier: [check_log_for_pattern] and the decision block *)
(* ------------------------------------------------------------------ *)
Module Classifier.
Import Text.

(** A regular expression of the shape used by the runner: its source text
    (as passed to [re.compile]) and its structure, an alternation ([|]) of
    branches, each branch a sequence of literals joined by [.*]. *)
Record pattern := Pattern {
  pat_src : string;
  pat_alts : list (list string)
}.

(** [r'Fatal:.*TestDriver.*at time.*ps'] (line 134) *)
Definition fatal_ps : pattern :=
  Pattern "Fatal:.*TestDriver.*at time.*ps" [["Fatal:"; "TestDriver"; "at time"; "ps"]].

(** [r'Error:|Assertion failed'] (line 137) *)
Definition error_pat : pattern :=
  Pattern "Error:|Assertion failed" [["Error:"]; ["Assertion failed"]].

(** [r'Fatal:.*TestDriver.*at time'] (line 138) *)
Definition fatal_at_time : pattern :=
  Pattern "Fatal:.*TestDriver.*at time" [["Fatal:"; "TestDriver"; "at time"]].

(** [re.IGNORECASE if 'error' in pattern.lower() else 0] *)
Definition ignorecase (p : pattern) : bool := contains "error" (lower (pat_src p)).

(** [regex.search(line)] *)
Definition regex_search (p : pattern) (line : string) : bool :=
  if ignorecase p
  then existsb (fun br => seq_search (map lower br) (lower line)) (pat_alts p)
  else existsb (fun br => seq_search br line) (pat_alts p).

(** A log file: [None] when it does not exist, else its lines (decoded
    with [errors='ignore'], line terminators removed). *)
Definition logfile := option (list string).

(** [check_log_for_pattern(log_file, pattern)] *)
Definition check_log_for_pattern (log : logfile) (p : pattern) : bool :=
  match log with
  | None => false
  | Some lines => existsb (regex_search p) lines
  end.

Inductive status := PASSED | FAILED | TIMEOUT.

Definition status_str (s : status) : string :=
  match s with PASSED => "PASSED" | FAILED => "FAILED" | TIMEOUT => "TIMEOUT" end.

(** Lines 130-146 of [run_single_test]. *)
Definition classify (exit_code : Z) (log : logfile) : status :=
  if exit_code =? 124 then TIMEOUT
  else if check_log_for_pattern log fatal_ps then TIMEOUT
  else if (check_log_for_pattern log error_pat
           && negb (check_log_for_pattern log fatal_at_time))%bool then FAILED
  else if negb (exit_code =? 0) then FAILED
  else PASSED.

End Classifier.

(* ------------------------------------------------------------------ *)
(** ** Python control flow: exceptions, signals and the shared registry *)
(* ------------------------------------------------------------------ *)
Module Py.

(** Raised objects: an [Exception] subclass (class name, text) or the
    [SystemExit] raised by [sys.exit], which [except Exception] lets through. *)
Inductive exn := PyExc (cls msg : string) | SysExit (code : Z).

Inductive res (A : Type) := Ok (a : A) | Err (e : exn).
Arguments Ok {A} a.
Arguments Err {A} e.

(** Outcome of a system or library call: a value, or an [Exception]
    subclass raised by it ([OSError], [CalledProcessError], ...). *)
Inductive osres (A : Type) := Done (a : A) | Raised (cls msg : string).
Arguments Done {A} a.
Arguments Raised {A} cls msg.

Definition of_os {A} (r : osres A) : res A :=
  match r with Done a => Ok a | Raised c m => Err (PyExc c m) end.

(** Delivery of SIGINT/SIGTERM: none, after [n] more interruptible
    operations, or already handled. *)
Inductive sigstate := NoSignal | Pending (n : nat) | Fired.

Definition sigstate_eq_dec (a b : sigstate) : {a = b} + {a <> b}.
Proof. decide equality. apply Nat.eq_dec. Defined.

(** Observable operations, in the order the process performs them. *)
Inductive event :=
  | EPrint (s : string)
  | EOpen (path : string)
  | ESpawn (pid : Z)
  | EWait (pid : Z)
  | ETerminate (pid : Z)          (* Popen.terminate(): SIGTERM to pid *)
  | EKill (pid : Z)               (* Popen.kill(): SIGKILL to pid *)
  | EKillPg (pgid : Z) (sig : Z)  (* os.killpg(pgid, sig) *)
  | ESleep (secs : Z)
  | EWrite (path text : string)
  | EStat (path : string)
  | ERun (what : string)
  | EFuture (name : string)
  | EShutdown
  | EMkdir
  | ERmtree.

(** Process state: the module-level list [active_processes] (handles are
    identified by pid), the pending signal and the trace. *)
Record state := St {
  st_registry : list Z;
  st_sig : sigstate;
  st_trace : list event
}.

Definition M (A : Type) : Type := state -> state * res A.

Definition ret {A} (a : A) : M A := fun s => (s, Ok a).
Definition raise {A} (e : exn) : M A := fun s => (s, Err e).
Definition bind {A B} (m : M A) (k : A -> M B) : M B :=
  fun s => let '(s1, r) := m s in
           match r with Ok a => k a s1 | Err e => (s1, Err e) end.

Notation "x <-- m ; k" := (bind m (fun x => k)) (at level 20, m at level 100, k at level 200).
Notation "m ;;; k" := (bind m (fun _ => k)) (at level 100, k at level 200, right associativity).

Definition emit (e : event) : M unit :=
  fun s => (St (st_registry s) (st_sig s) (st_trace s ++ [e]), Ok tt).

(** [cleanup_handler] (lines 34-55): [terminate()] every tracked handle
    (errors swallowed by the bare [except]), sleep 1 s, [kill()] every
    tracked handle, then [sys.exit(130)]. *)
Definition cleanup_events (reg : list Z) : list event :=
  map ETerminate reg ++ [ESleep 1] ++ map EKill reg.

Definition cleanup_handler : M unit :=
  fun s => (St (st_registry s) Fired
              (st_trace s ++ [EPrint "Cleaning up..."] ++ cleanup_events (st_registry s)),
            Err (SysExit 130)).

(** The interpreter runs the Python-level handler at the next
    interruptible operation after the signal arrives. *)
Definition tick : M unit :=
  fun s => match st_sig s with
           | Pending 0 => cleanup_handler s
           | Pending (S n) => (St (st_registry s) (Pending n) (st_trace s), Ok tt)
           | _ => (s, Ok tt)
           end.

Definition act (e : event) : M unit := tick ;;; emit e.

(** An operation whose outcome (value or raised exception) is decided by
    the environment. *)
Definition lift {A} (r : res A) : M A := fun s => (s, r).
Definition prim {A} (e : event) (r : res A) : M A := act e ;;; lift r.

Definition syscall {A} (e : event) (r : osres A) : M A := prim e (of_os r).

Definition sys_exit {A} (code : Z) : M A := raise (SysExit code).

(** [try: m except <matching>: h] *)
Definition try_except {A} (m : M A) (catches : exn -> bool) (h : exn -> M A) : M A :=
  fun s => let '(s1, r) := m s in
           match r with
           | Err e => if catches e then h e s1 else (s1, Err e)
           | Ok a => (s1, Ok a)
           end.

Definition is_Exception (e : exn) : bool :=
  match e with PyExc _ _ => true | SysExit _ => false end.

Definition is_TimeoutExpired (e : exn) : bool :=
  match e with PyExc c _ => String.eqb c "TimeoutExpired" | SysExit _ => false end.

(** [try: m finally: fin]: an exception of [fin] replaces the pending one. *)
Definition try_finally {A} (m : M A) (fin : M unit) : M A :=
  fun s => let '(s1, r) := m s in
           let '(s2, r2) := fin s1 in
           match r2 with Err e => (s2, Err e) | Ok _ => (s2, r) end.

Fixpoint foldM {A B} (f : B -> A -> M B) (acc : B) (l : list A) : M B :=
  match l with
  | [] => ret acc
  | x :: l' => b <-- f acc x ; foldM f b l'
  end.

(** [active_processes.append(proc)] *)
Definition reg_append (pid : Z) : M unit :=
  fun s => (St (st_registry s ++ [pid]) (st_sig s) (st_trace s), Ok tt).

Fixpoint remove_first (x : Z) (l : list Z) : list Z :=
  match l with
  | [] => []
  | y :: l' => if y =? x then l' else y :: remove_first x l'
  end.

(** [if proc in active_processes: active_processes.remove(proc)] *)
Definition reg_remove (pid : Z) : M unit :=
  fun s => (St (remove_first pid (st_registry s)) (st_sig s) (st_trace s), Ok tt).

(** Exit status of the interpreter for the outcome of [main()]: an
    uncaught [Exception] prints a traceback and exits with 1. *)
Definition exit_status {A} (r : res A) : Z :=
  match r with
  | Ok _ => 0
  | Err (SysExit c) => c
  | Err (PyExc _ _) => 1
  end.

End Py.

(* ------------------------------------------------------------------ *)
(** ** The worker: process supervision and [run_single_test] *)
(* ------------------------------------------------------------------ *)
Module Worker.
Import Text Classifier Py.

(** [Path.stem]: [i = name.rfind('.')]; the name without its suffix when
    [0 < i < len(name) - 1], else the whole name. *)
Fixpoint rfind_dot (s : string) (pos : nat) (best : option nat) : option nat :=
  match s with
  | EmptyString => best
  | String c s' => rfind_dot s' (S pos) (if ascii_dec c "." then Some pos else best)
  end.

Definition stem (name : string) : string :=
  match rfind_dot name 0 None with
  | Some i => if (Nat.ltb 0 i && Nat.ltb i (String.length name - 1))%bool
              then substring 0 i name else name
  | None => name
  end.

(** How the external command behaves: it exits by itself [t] seconds
    after the start with status [code], or it never exits. *)
Inductive behaviour := Exits (t code : Z) | Hangs.

(** The outcomes the operating system gives to the worker's operations. *)
Record wenv := WEnv {
  w_open : osres unit;          (* open(log_file, 'w') *)
  w_popen : osres Z;            (* subprocess.Popen: pid of the new group leader *)
  w_behaviour : behaviour;
  w_wait_exn : option (string * string); (* an unexpected exception of proc.wait *)
  w_killpg_term : osres unit;   (* os.killpg(os.getpgid(pid), SIGTERM) *)
  w_killpg_kill : osres unit;   (* os.killpg(os.getpgid(pid), SIGKILL) *)
  w_log : list string;          (* the log file's lines once the command is gone *)
  w_write : osres unit          (* result_file.write_text(...) *)
}.

Definition SIGTERM : Z := 15.
Definition SIGKILL : Z := 9.

Definition timeout_expired : exn := PyExc "TimeoutExpired" "timed out".

(** [proc.wait(timeout=wall_timeout)] *)
Definition wait_outcome (wall_timeout : Z) (e : wenv) : res Z :=
  match w_wait_exn e with
  | Some (c, m) => Err (PyExc c m)
  | None =>
      match w_behaviour e with
      | Exits t code => if t <=? wall_timeout then Ok code else Err timeout_expired
      | Hangs => Err timeout_expired
      end
  end.

Definition make_target (debug : bool) : string :=
  if debug then "run-binary-debug" else "run-binary".

(** Lines 101-124 without the outer [except]: spawn in a new process
    group ([os.setsid], so the group id is the pid), register, wait with
    the wall-clock budget, escalate on [TimeoutExpired], unregister in
    [finally]. *)
Definition supervise (test_name : string) (debug : bool) (wall_timeout : Z) (e : wenv) : M Z :=
  syscall (EOpen (test_name ++ ".log")%string) (w_open e) ;;;
  pid <-- syscall (ERun ("make " ++ make_target debug)%string) (w_popen e) ;
  reg_append pid ;;;
  try_finally
    (try_except (prim (EWait pid) (wait_outcome wall_timeout e)) is_TimeoutExpired
       (fun _ =>
          syscall (EKillPg pid SIGTERM) (w_killpg_term e) ;;;
          act (ESleep 1) ;;;
          try_except (syscall (EKillPg pid SIGKILL) (w_killpg_kill e))
                     (fun _ => true) (fun _ => ret tt) ;;;
          ret 124))
    (reg_remove pid).

Definition exn_text (x : exn) : string :=
  match x with PyExc _ m => m | SysExit _ => "" end.

(** [run_single_test] (lines 76-152): returns [(test_name, status)]. *)
Definition run_single_test (test_file : string) (debug : bool) (wall_timeout : Z)
    (e : wenv) : M (string * string) :=
  let test_name := stem test_file in
  let result_file := (test_name ++ ".result")%string in
  act (EPrint ("Starting: " ++ test_name)%string) ;;;
  r <-- try_except (c <-- supervise test_name debug wall_timeout e ; ret (Some c)) is_Exception
          (fun x => act (EPrint ("ERROR: " ++ test_name ++ " - " ++ exn_text x)%string) ;;;
                    syscall (EWrite result_file ("FAILED:" ++ test_name)%string) (w_write e) ;;;
                    ret None) ;
  match r with
  | None => ret (test_name, "FAILED")
  | Some exit_code =>
      let status := status_str (classify exit_code (Some (w_log e))) in
      syscall (EWrite result_file (status ++ ":" ++ test_name)%string) (w_write e) ;;;
      act (EPrint (status ++ ": " ++ test_name)%string) ;;;
      ret (test_name, status)
  end.

(** A fresh worker process: nothing tracked, no signal. *)
Definition worker_init : state := St [] NoSignal [].

(** What [future.result()] yields for one submitted test. *)
Definition worker_result (test_file : string) (debug : bool) (wall_timeout : Z)
    (e : wenv) : res (string * string) :=
  snd (run_single_test test_file debug wall_timeout e worker_init).

End Worker.

(* ------------------------------------------------------------------ *)
(** ** The driver: [collect_tests], the result loop and [main] *)
(* ------------------------------------------------------------------ *)
Module Driver.
Import Text Classifier Py Worker.

(** Python's [str] ordering (code-point lexicographic), used by [sorted]
    on the paths of one directory. *)
Definition name_le (a b : string * bool) : Prop := String.leb a.1 b.1 = true.
#[global] Instance name_le_dec : RelDecision name_le.
Proof. intros a b. unfold name_le. apply _. Defined.

(** [collect_tests] (lines 154-173).  [listing] holds the entries that
    [binary_dir.glob(pattern)] considers (base name, [is_file()]) and
    [glob_match] the glob test on a base name; [search name] is
    [re.search(exclude_pattern, name)]: [None] when it raises [re.error],
    else whether it matches. *)
Definition collect_tests_step (exclude_pattern : string) (search : string -> option bool)
    (tests : list string) (en : string * bool) : M (list string) :=
  act (EStat en.1) ;;;
  if negb en.2 then ret tests
  else if String.eqb exclude_pattern "" then ret (tests ++ [en.1])
  else match search en.1 with
       | None => act (EPrint "[WARNING] Invalid exclude pattern") ;;; sys_exit 1
       | Some true => ret tests
       | Some false => ret (tests ++ [en.1])
       end.

Definition collect_tests (listing : list (string * bool)) (glob_match : string -> bool)
    (exclude_pattern : string) (search : string -> option bool) : M (list string) :=
  let globbed := merge_sort name_le (filter (fun en => glob_match en.1) listing) in
  foldM (collect_tests_step exclude_pattern search) [] globbed.

(** Lines 286-308: [results[test_name] = status] for each completed
    future, and [results[test_file.stem] = "FAILED"] when [future.result()]
    raises an [Exception].  [outs] lists the futures in completion order. *)
Definition collect_step (results : gmap string string)
    (fo : string * res (string * string)) : M (gmap string string) :=
  let '(test_file, o) := fo in
  try_except (r <-- prim (EFuture test_file) o ; ret (<[r.1 := r.2]> results))
    is_Exception
    (fun x => act (EPrint ("[ERROR] Exception for " ++ test_file ++ ": "
                            ++ exn_text x)%string) ;;;
              ret (<[stem test_file := "FAILED"]> results)).

Definition collect_loop (outs : list (string * res (string * string)))
    : M (gmap string string) :=
  foldM collect_step ∅ outs.

(** Lines 314-324: iterate [results.items()], split by status. *)
Definition categorize_step (acc : list string * list string * list string)
    (kv : string * string) : list string * list string * list string :=
  let '(passed, failed, timeouts) := acc in
  let '(test_name, status) := kv in
  if String.eqb status "PASSED" then (passed ++ [test_name], failed, timeouts)
  else if String.eqb status "TIMEOUT" then (passed, failed, timeouts ++ [test_name])
  else (passed, failed ++ [test_name], timeouts).

Definition categorize (results : gmap string string) : list string * list string * list string :=
  fold_left categorize_step (map_to_list results) ([], [], []).

Record margs := MArgs {
  a_debug : bool;
  a_wall_timeout : Z;
  a_gen_vector : bool;
  a_no_compare : bool;
  a_exclude : string
}.

(** What the environment gives to [main]. *)
Record menv := MEnv {
  m_riscv_dv_exists : bool;
  m_gen_script_exists : bool;
  m_gen_result : osres unit;                  (* subprocess.run(..., check=True) *)
  m_binary_dir_exists : bool;
  m_listing : list (string * bool);
  m_glob : string -> bool;
  m_search : string -> option bool;
  m_order : list string -> list string;       (* completion order of the futures *)
  m_worker : string -> res (string * string); (* what future.result() gives *)
  m_compare_exists : bool;
  m_compare : osres Z                         (* subprocess.run of compare_all.py *)
}.

(** Lines 313-366: summary, optional comparison (its status is not
    looked at), then [sys.exit(1)] if anything failed or timed out, else
    [sys.exit(0)]. *)
Definition report_and_exit (a : margs) (e : menv) (results : gmap string string) : M unit :=
  let '(passed, failed, timeouts) := categorize results in
  act (EPrint "Summary") ;;;
  (if a_no_compare a then ret tt
   else act (EPrint "Running comparison...") ;;;
        (if m_compare_exists e
         then (_ <-- syscall (ERun "compare_all.py") (m_compare e) ; ret tt)
         else act (EPrint "Warning: compare_all.py not found, skipping comparison"))) ;;;
  match failed, timeouts with
  | [], [] => act (EPrint "All tests passed!") ;;; sys_exit 0
  | _, _ => sys_exit 1
  end.

(** [main] from the installation of the signal handlers (line 228) on. *)
Definition main_prog (a : margs) (e : menv) : M unit :=
  if negb (m_riscv_dv_exists e)
  then act (EPrint "Error: riscv-dv directory not found") ;;; sys_exit 1
  else
  (if a_gen_vector a
   then act (EPrint "Generating test vectors...") ;;;
        (if m_gen_script_exists e
         then syscall (ERun "generate_test_vector.py") (m_gen_result e)
         else act (EPrint "Warning: generate_test_vector.py not found, skipping generation"))
   else ret tt) ;;;
  if negb (m_binary_dir_exists e)
  then act (EPrint "Error: Binary directory not found") ;;; sys_exit 1
  else
  tests <-- collect_tests (m_listing e) (m_glob e) (a_exclude a) (m_search e) ;
  match tests with
  | [] => act (EPrint "No tests found!") ;;; sys_exit 1
  | _ :: _ =>
      act EMkdir ;;;
      try_finally
        (act (EPrint "RISC-V DV Parallel Test Runner") ;;;
         results <-- try_finally
                       (collect_loop (map (fun t => (t, m_worker e t)) (m_order e tests)))
                       (act EShutdown) ;
         act (EPrint "Waiting for all tests to complete...") ;;;
         act (ESleep 1) ;;;
         report_and_exit a e results)
        (act ERmtree)
  end.

(** The main process starts with an empty registry; [sig] says whether
    and when SIGINT/SIGTERM arrives. *)
Definition main_run (a : margs) (e : menv) (sig : sigstate) : state * res unit :=
  main_prog a e (St [] sig []).

End Driver.

(* ------------------------------------------------------------------ *)
(** ** [main] from its first line *)
(* ------------------------------------------------------------------ *)
Module MainEntry.
Import Py Driver.

(** What [parser.parse_args()] (line 224) does with the command line:
    the options, or [--help]/[-h] (usage printed, [sys.exit(0)]), or an
    unknown option or a non-integer value of an [int] option (usage and
    error printed, [sys.exit(2)]). *)
Inductive parsed := Parsed (a : margs) | AskedHelp | BadOption.

(** The two directory creations of lines 263-265. *)
Record fsenv := FS {
  f_log_mkdir : osres unit;   (* log_dir.mkdir(exist_ok=True) *)
  f_mkdtemp : osres unit      (* tempfile.mkdtemp(prefix='test_results_') *)
}.

(** An operation that leaves no event of its own in the trace. *)
Definition quiet (r : osres unit) : M unit := tick ;;; lift (of_os r).

(** [main] (lines 175-371): [parse_args], then the steps of [main_prog]
    with both directory creations able to raise; [EMkdir] is recorded
    once [mkdtemp] has created the result directory. *)
Definition main_full (p : parsed) (e : menv) (fs : fsenv) : M unit :=
  match p with
  | AskedHelp => act (EPrint "usage: run_parallel_tests.py [-h] [--out-dir OUT_DIR] ...") ;;;
                 sys_exit 0
  | BadOption => act (EPrint "run_parallel_tests.py: error: unrecognized arguments") ;;;
                 sys_exit 2
  | Parsed a =>
  if negb (m_riscv_dv_exists e)
  then act (EPrint "Error: riscv-dv directory not found") ;;; sys_exit 1
  else
  (if a_gen_vector a
   then act (EPrint "Generating test vectors...") ;;;
        (if m_gen_script_exists e
         then syscall (ERun "generate_test_vector.py") (m_gen_result e)
         else act (EPrint "Warning: generate_test_vector.py not found, skipping generation"))
   else ret tt) ;;;
  if negb (m_binary_dir_exists e)
  then act (EPrint "Error: Binary directory not found") ;;; sys_exit 1
  else
  tests <-- collect_tests (m_listing e) (m_glob e) (a_exclude a) (m_search e) ;
  match tests with
  | [] => act (EPrint "No tests found!") ;;; sys_exit 1
  | _ :: _ =>
      quiet (f_log_mkdir fs) ;;;
      quiet (f_mkdtemp fs) ;;; emit EMkdir ;;;
      try_finally
        (act (EPrint "RISC-V DV Parallel Test Runner") ;;;
         results <-- try_finally
                       (collect_loop (map (fun t => (t, m_worker e t)) (m_order e tests)))
                       (act EShutdown) ;
         act (EPrint "Waiting for all tests to complete...") ;;;
         act (ESleep 1) ;;;
         report_and_exit a e results)
        (act ERmtree)
  end
  end.

(** The exit status of [main] when it stops before creating the result
    directory: argparse's for [--help] and a bad option, 1 otherwise. *)
Definition early_status (p : parsed) : Z :=
  match p with AskedHelp => 0 | BadOption => 2 | Parsed _ => 1 end.

End MainEntry.

(* ------------------------------------------------------------------ *)
(** ** Signals and process groups *)
(* ------------------------------------------------------------------ *)
Module OS.
Import Py Worker.

(** A process of the system: pid, process group, whether it still runs,
    and whether SIGTERM ends it (a process may catch or ignore it). *)
Record proc := Proc {
  p_pid : Z;
  p_pgid : Z;
  p_alive : bool;
  p_term_kills : bool
}.

Definition deliver (sig : Z) (q : proc) : proc :=
  if (sig =? SIGKILL) || ((sig =? SIGTERM) && p_term_kills q)
  then Proc (p_pid q) (p_pgid q) false (p_term_kills q)
  else q.

(** [os.kill(pid, sig)] (what [Popen.terminate]/[Popen.kill] do on a
    process that has not been reaped). *)
Definition kill_pid (pid sig : Z) (pt : list proc) : list proc :=
  map (fun q => if (p_pid q =? pid) && p_alive q then deliver sig q else q) pt.

(** [os.killpg(pgid, sig)] *)
Definition kill_pg (pgid sig : Z) (pt : list proc) : list proc :=
  map (fun q => if (p_pgid q =? pgid) && p_alive q then deliver sig q else q) pt.

Definition apply_event (pt : list proc) (ev : event) : list proc :=
  match ev with
  | ETerminate pid => kill_pid pid SIGTERM pt
  | EKill pid => kill_pid pid SIGKILL pt
  | EKillPg g sig => kill_pg g sig pt
  | _ => pt
  end.

Definition run_events (pt : list proc) (evs : list event) : list proc :=
  fold_left apply_event evs pt.

(** The operations [cleanup_handler] performs with registry [reg]. *)
Definition handler_trace (reg : list Z) : list event :=
  st_trace (fst (cleanup_handler (St reg (Pending 0) []))).

End OS.

(* ------------------------------------------------------------------ *)
(** ** Readings of the specification, compared with the code above *)
(* ------------------------------------------------------------------ *)
Module SpecReading.
Import Classifier Py Worker.

(** Section 4.2 as worded: a [timedOut] flag first, and the error case
    excluded only by the same max-cycle marker as case 2. *)
Definition classify_as_specified (timedOut : bool) (exit_code : Z) (log : logfile) : status :=
  if timedOut then TIMEOUT
  else if check_log_for_pattern log fatal_ps then TIMEOUT
  else if (check_log_for_pattern log error_pat
           && negb (check_log_for_pattern log fatal_ps))%bool then FAILED
  else if negb (exit_code =? 0) then FAILED
  else PASSED.

(** Whether the wall-clock budget [w] elapses before the command exits. *)
Definition timed_out (w : Z) (b : behaviour) : bool :=
  match b with Exits t _ => negb (t <=? w) | Hangs => true end.

(** The same environment with another behaviour of the command. *)
Definition with_behaviour (e : wenv) (b : behaviour) : wenv :=
  WEnv (w_open e) (w_popen e) b (w_wait_exn e) (w_killpg_term e) (w_killpg_kill e)
       (w_log e) (w_write e).

(** The key and the status [main] stores for one completed future. *)
Definition out_key (fo : string * res (string * string)) : string :=
  match fo.2 with Ok (n, _) => n | Err _ => stem fo.1 end.

Definition out_status (fo : string * res (string * string)) : string :=
  match fo.2 with Ok (_, st) => st | Err _ => "FAILED" end.

Definition not_sysexit {A} (r : res A) : bool :=
  match r with Err (SysExit _) => false | _ => true end.

(** An [Exception] is raised inside the worker's [try] block: by
    [open], by [Popen] (spawn failure), by [wait], or by the SIGTERM
    [killpg] after a timeout. *)
Definition supervision_raises (w : Z) (e : wenv) : Prop :=
  (exists c m, w_open e = Raised c m) \/
  (w_open e = Done tt /\ exists c m, w_popen e = Raised c m) \/
  (w_open e = Done tt /\ (exists pid, w_popen e = Done pid) /\
   exists c m, w_wait_exn e = Some (c, m) /\ c <> "TimeoutExpired") \/
  (w_open e = Done tt /\ (exists pid, w_popen e = Done pid) /\ w_wait_exn e = None /\
   timed_out w (w_behaviour e) = true /\ exists c m, w_killpg_term e = Raised c m).

(** Section 3: a collected entry is a regular file whose base name the
    exclusion expression does not match; an empty expression excludes
    nothing. *)
Definition kept (exclude_pattern : string) (search : string -> option bool)
    (en : string * bool) : bool :=
  en.2 && (String.eqb exclude_pattern ""
           || match search en.1 with Some false => true | _ => false end).

(** Events of the collection phase: [is_file()] probes and messages. *)
Definition collection_event (ev : event) : bool :=
  match ev with EStat _ | EPrint _ => true | _ => false end.

Definition is_stat (ev : event) : bool :=
  match ev with EStat _ => true | _ => false end.

(** The comparison step of lines 352-359 is skipped, finds no
    [compare_all.py], or starts it (whatever its exit status). *)
Definition compare_starts (a : Driver.margs) (e : Driver.menv) : bool :=
  Driver.a_no_compare a || negb (Driver.m_compare_exists e) ||
  match Driver.m_compare e with Done _ => true | Raised _ _ => false end.

End SpecReading.

(** Properties of computations in [M] used by the proofs below. *)
Module MProps.
Import Py.

(** Leaves [active_processes] alone. *)
Definition Keeps {A} (m : M A) : Prop :=
  forall s, st_registry (fst (m s)) = st_registry s.

(** Once the handler has run inside [m], [m] ends by propagating its
    [SystemExit(130)]. *)
Definition ExitsOnSignal {A} (m : M A) : Prop :=
  forall s, st_sig s <> Fired -> st_sig (fst (m s)) = Fired ->
            snd (m s) = Err (SysExit 130).

(** Run after the handler (a [finally] block), [m] raises nothing. *)
Definition QuietAfterSignal {A} (m : M A) : Prop :=
  forall s, st_sig s = Fired -> exists a, snd (m s) = Ok a.

End MProps.

(* ------------------------------------------------------------------ *)
(** ** [compare_all.py]: the comparison step [main] runs at the end *)
(* ------------------------------------------------------------------ *)
Module CompareAll.
Import Text Py Worker.

(** [sorted()] on the paths of one directory: by base name. *)
Definition str_le (a b : string) : Prop := String.leb a b = true.
#[global] Instance str_le_dec : RelDecision str_le.
Proof. intros a b. unfold str_le. apply _. Defined.

(** [asm_dir.glob('*.o')] on a base name. *)
Definition glob_o (name : string) : bool :=
  String.eqb (substring (String.length name - 2) 2 name) ".o".

(** The third field of a [results] entry: the fixed texts of the script,
    which only differ by the paths they quote. *)
Inductive reason :=
  | RPassed                  (* "PASSED" *)
  | RRocketMissing           (* f"Rocket log not found: {rocket_log}" *)
  | RSpikeMissing            (* f"Spike log not found: {spike_log}" *)
  | RMissingPASSED           (* f"Missing PASSED in {compare_log}" *)
  | RTimedOut                (* "Comparison timed out" *)
  | RException (msg : string). (* f"Exception: {e}" *)

(** What the file system and [compare.py] give to the script, per test
    name. *)
Record cenv := CEnv {
  c_asm_exists : bool;
  c_log_exists : bool;
  c_compare_exists : bool;
  c_listing : list string;             (* base names in asm_dir *)
  c_rocket_exists : string -> bool;    (* (log_dir / f"{test_name}.out").exists() *)
  c_spike_exists : string -> bool;     (* (spike_log_dir / f"{test_name}.log").exists() *)
  c_open_w : string -> osres unit;     (* open(compare_log, 'w') *)
  c_run : string -> osres Z;           (* subprocess.run(cmd, ..., timeout=60) *)
  c_read : string -> osres string      (* open(compare_log, 'r').read() *)
}.

(** [results], [pass_count], [fail_count] *)
Definition tally : Type := (list (string * bool * reason) * Z * Z)%type.

(** [try: m except <c1>: h1 except <c2>: h2]: the first matching clause
    runs; an exception of a handler is not caught by the later clause. *)
Definition try_except2 {A} (m : M A) (c1 : exn -> bool) (h1 : exn -> M A)
    (c2 : exn -> bool) (h2 : exn -> M A) : M A :=
  fun s => let '(s1, r) := m s in
           match r with
           | Err x => if c1 x then h1 x s1 else if c2 x then h2 x s1 else (s1, Err x)
           | Ok a => (s1, Ok a)
           end.

Definition compare_cmd (test_name : string) : string :=
  ("compare.py --rtl " ++ test_name ++ ".out --spike " ++ test_name ++ ".log")%string.

(** One iteration of the loop over [test_objects] (lines 62-118). *)
Definition compare_test (e : cenv) (t : tally) (obj : string) : M tally :=
  let '(results, pass_count, fail_count) := t in
  let test_name := stem obj in
  if negb (c_rocket_exists e test_name)
  then ret (results ++ [(test_name, false, RRocketMissing)], pass_count, fail_count + 1)
  else if negb (c_spike_exists e test_name)
  then ret (results ++ [(test_name, false, RSpikeMissing)], pass_count, fail_count + 1)
  else
  try_except2
    (syscall (EOpen ("compare_" ++ test_name ++ ".log")%string) (c_open_w e test_name) ;;;
     _ <-- syscall (ERun (compare_cmd test_name)) (c_run e test_name) ;
     log_content <-- syscall (EOpen ("compare_" ++ test_name ++ ".log")%string)
                             (c_read e test_name) ;
     if contains "PASSED" log_content
     then act (EPrint ("[PASS] " ++ test_name)%string) ;;;
          ret (results ++ [(test_name, true, RPassed)], pass_count + 1, fail_count)
     else act (EPrint ("[FAIL] " ++ test_name)%string) ;;;
          ret (results ++ [(test_name, false, RMissingPASSED)], pass_count, fail_count + 1))
    is_TimeoutExpired
    (fun _ => act (EPrint ("[FAIL] " ++ test_name ++ " (timeout)")%string) ;;;
              ret (results ++ [(test_name, false, RTimedOut)], pass_count, fail_count + 1))
    is_Exception
    (fun x => act (EPrint ("[FAIL] " ++ test_name ++ " (error: " ++ exn_text x ++ ")")%string) ;;;
              ret (results ++ [(test_name, false, RException (exn_text x))],
                   pass_count, fail_count + 1)).

(** Lines 131-134: list the failed tests. *)
Definition print_failed (results : list (string * bool * reason)) : M unit :=
  foldM (fun (_ : unit) (r : string * bool * reason) =>
           let '(test_name, passed, _) := r in
           if passed then ret tt else act (EPrint ("  - " ++ test_name)%string))
        tt results.

(** [main] of [compare_all.py]; [argv] is [sys.argv]. *)
Definition compare_all_main (argv : list string) (e : cenv) : M unit :=
  if negb (Nat.eqb (List.length argv) 3)
  then act (EPrint "Usage: compare_all.py <asm_dir> <log_dir>") ;;;
       act (EPrint "Example: ./compare_all.py <asm_dir> <log_dir>") ;;;
       sys_exit 1
  else if negb (c_asm_exists e)
  then act (EPrint "Error: ASM directory not found") ;;; sys_exit 1
  else if negb (c_log_exists e)
  then act (EPrint "Error: Log directory not found") ;;; sys_exit 1
  else if negb (c_compare_exists e) then sys_exit 1
  else
  let test_objects := merge_sort str_le (filter (fun n => glob_o n) (c_listing e)) in
  match test_objects with
  | [] => act (EPrint "Warning: No .o files found") ;;; sys_exit 0
  | _ :: _ =>
      act (EPrint "Found tests to compare") ;;;
      t <-- foldM (compare_test e) ([], 0, 0) test_objects ;
      let '(results, pass_count, fail_count) := t in
      act (EPrint "Summary") ;;;
      (if 0 <? fail_count then act (EPrint "Failed tests:") ;;; print_failed results
       else ret tt) ;;;
      sys_exit (if fail_count =? 0 then 0 else 1)
  end.

End CompareAll.

(* ------------------------------------------------------------------ *)
(** ** [compare.py]: one RTL/Spike trace comparison *)
(* ------------------------------------------------------------------ *)
Module ComparePy.
Import Py.





End ComparePy.

(* ------------------------------------------------------------------ *)
(** ** Invariants of uninterrupted runs *)
(* ------------------------------------------------------------------ *)
Module RunProps.
Import Py.

(** Without a signal, [m] receives none and only appends to the trace. *)
Definition Ext {A} (m : M A) : Prop :=
  forall s, st_sig s = NoSignal ->
    st_sig (fst (m s)) = NoSignal /\ exists tr, st_trace (fst (m s)) = st_trace s ++ tr.

(** A step of [main] before the result directory is created: it creates
    none, and an exception it raises ends the program with status 1. *)
Definition Before {A} (m : M A) : Prop :=
  forall s, st_sig s = NoSignal ->
    st_sig (fst (m s)) = NoSignal /\
    (exists tr, st_trace (fst (m s)) = st_trace s ++ tr /\ ~ In EMkdir tr) /\
    (forall x, snd (m s) = Err x -> exit_status (Err (A := unit) x) = 1).

End RunProps.

(* ------------------------------------------------------------------ *)
(** ** What [compare_all.py] counts as a passed comparison *)
(* ------------------------------------------------------------------ *)
Module CompareReading.
Import Text Py CompareAll.

(** Both logs exist, the compare log can be created, [compare.py] can
    be run within 60 s (whatever its exit status), its log can be read
    back and contains "PASSED". *)
Definition comparison_passes (e : cenv) (test_name : string) : bool :=
  c_rocket_exists e test_name && c_spike_exists e test_name &&
  match c_open_w e test_name, c_run e test_name, c_read e test_name with
  | Done _, Done _, Done log_content => contains "PASSED" log_content
  | _, _, _ => false
  end.

(** The same environment with every completed [compare.py] run reporting
    exit status 0. *)
Definition with_zero_status (e : cenv) : cenv :=
  CEnv (c_asm_exists e) (c_log_exists e) (c_compare_exists e) (c_listing e)
       (c_rocket_exists e) (c_spike_exists e) (c_open_w e)
       (fun n => match c_run e n with Done _ => Done 0 | Raised c m => Raised c m end)
       (c_read e).

(** The checks of lines 33-52 all succeed: two arguments, both
    directories and [compare.py] present. *)
Definition setup_ok (argv : list string) (e : cenv) : bool :=
  Nat.eqb (List.length argv) 3 && c_asm_exists e && c_log_exists e && c_compare_exists e.

End CompareReading.

(* ================================================================== *)
(** * Theorems *)
(* ================================================================== *)

Module ClassifierFacts.
Import Text Classifier Py Worker SpecReading.

(** C1 (counterexample): the classifier reads the wall-clock timeout
    only from the exit code 124, so a command that exits in time with
    status 124 is TIMEOUT where the worded order gives FAILED; and the
    error case is excluded by the shorter marker [Fatal:.*TestDriver.*at time],
    so an error line next to a [... at time 7 ns] fatal line gives PASSED
    with exit code 0 where the worded order gives FAILED. *)
Lemma classify_order_counterexample :
  worker_result "t.o" false 10
    (WEnv (Done tt) (Done 100) (Exits 5 124) None (Done tt) (Done tt) [] (Done tt))
    = Ok ("t", "TIMEOUT") /\
  classify_as_specified (timed_out 10 (Exits 5 124)) 124 (Some []) = FAILED /\
  classify 0 (Some ["Error: boom"; "Fatal: TestDriver at time 7 ns"]) = PASSED /\
  classify_as_specified false 0 (Some ["Error: boom"; "Fatal: TestDriver at time 7 ns"])
    = FAILED.
Proof. vm_compute. repeat split. Qed.

(** C1 (amended): first match wins over the exit code: 124 gives
    TIMEOUT; else a line matching [Fatal:.*TestDriver.*at time.*ps]
    (case-sensitive) gives TIMEOUT; else a line matching
    [Error:|Assertion failed] (case-insensitive) with no line matching
    [Fatal:.*TestDriver.*at time] (case-sensitive) gives FAILED; else a
    non-zero exit code gives FAILED; else PASSED. *)
Theorem classify_decision_order (exit_code : Z) (log : logfile) :
  ignorecase error_pat = true /\ ignorecase fatal_ps = false /\
  ignorecase fatal_at_time = false /\
  (exit_code = 124 -> classify exit_code log = TIMEOUT) /\
  (exit_code <> 124 -> check_log_for_pattern log fatal_ps = true ->
     classify exit_code log = TIMEOUT) /\
  (exit_code <> 124 -> check_log_for_pattern log fatal_ps = false ->
     check_log_for_pattern log error_pat = true ->
     check_log_for_pattern log fatal_at_time = false ->
     classify exit_code log = FAILED) /\
  (exit_code <> 124 -> check_log_for_pattern log fatal_ps = false ->
     (check_log_for_pattern log error_pat = false \/
      check_log_for_pattern log fatal_at_time = true) ->
     exit_code <> 0 -> classify exit_code log = FAILED) /\
  (check_log_for_pattern log fatal_ps = false ->
     (check_log_for_pattern log error_pat = false \/
      check_log_for_pattern log fatal_at_time = true) ->
     exit_code = 0 -> classify exit_code log = PASSED).
Proof.
  unfold classify.
  repeat split; intros; subst; try reflexivity;
    repeat match goal with
           | H : ?x <> ?y |- _ => apply Z.eqb_neq in H; rewrite H
           | H : check_log_for_pattern _ _ = _ |- _ => rewrite H
           | H : _ \/ _ |- _ => destruct H as [H | H]; rewrite H
           end; simpl; try reflexivity.
  all: destruct (check_log_for_pattern log error_pat); reflexivity.
Qed.

End ClassifierFacts.

Module SupervisorFacts.
Import Text Classifier Py Worker SpecReading MProps.

Create HintDb pym.

Lemma Keeps_ret {A} (a : A) : Keeps (ret a).
Proof. intros s. reflexivity. Qed.

Lemma Keeps_raise {A} (x : exn) : Keeps (A := A) (raise x).
Proof. intros s. reflexivity. Qed.

Lemma Keeps_tick : Keeps tick.
Proof. intros [r [|[|n]|] t]; reflexivity. Qed.

Lemma Keeps_bind {A B} (m : M A) (k : A -> M B) :
  Keeps m -> (forall a, Keeps (k a)) -> Keeps (bind m k).
Proof.
  intros Hm Hk s. unfold bind. specialize (Hm s).
  destruct (m s) as [s1 [a|x]]; simpl in *; [rewrite Hk|]; exact Hm.
Qed.

Lemma Keeps_emit (ev : event) : Keeps (emit ev).
Proof. intros s. reflexivity. Qed.

Lemma Keeps_act (ev : event) : Keeps (act ev).
Proof. unfold act. apply Keeps_bind; [apply Keeps_tick | intros; apply Keeps_emit]. Qed.

Lemma Keeps_syscall {A} (ev : event) (r : osres A) : Keeps (syscall ev r).
Proof.
  unfold syscall, prim. apply Keeps_bind; [apply Keeps_act | intros; intros s; reflexivity].
Qed.

Lemma Keeps_try_except {A} (m : M A) c (h : exn -> M A) :
  Keeps m -> (forall x, Keeps (h x)) -> Keeps (try_except m c h).
Proof.
  intros Hm Hh s. unfold try_except. specialize (Hm s).
  destruct (m s) as [s1 [a|x]]; simpl in *; [exact Hm|].
  destruct (c x); simpl; [rewrite Hh|]; exact Hm.
Qed.

#[local] Hint Resolve Keeps_ret Keeps_raise Keeps_tick Keeps_bind Keeps_emit Keeps_act
  Keeps_syscall Keeps_try_except : pym.

Lemma remove_first_fresh (pid : Z) (l : list Z) :
  ~ In pid l -> remove_first pid (l ++ [pid]) = l.
Proof.
  induction l as [|y l IH]; intros Hn; simpl.
  - rewrite Z.eqb_refl. reflexivity.
  - destruct (Z.eqb_spec y pid) as [->|Hne].
    + exfalso. apply Hn. left. reflexivity.
    + rewrite IH; [reflexivity|]. intros Hin. apply Hn. right. exact Hin.
Qed.

(** The part of [supervise] inside [try ... finally]. *)
Lemma Keeps_wait_block (pid w : Z) (e : wenv) :
  Keeps (try_except (prim (EWait pid) (wait_outcome w e)) is_TimeoutExpired
       (fun _ =>
          syscall (EKillPg pid SIGTERM) (w_killpg_term e) ;;;
          act (ESleep 1) ;;;
          try_except (syscall (EKillPg pid SIGKILL) (w_killpg_kill e))
                     (fun _ => true) (fun _ => ret tt) ;;;
          ret 124)).
Proof.
  apply Keeps_try_except.
  - unfold prim. apply Keeps_bind; [apply Keeps_act | intros; intros s; reflexivity].
  - intros. repeat (apply Keeps_bind; [eauto with pym | intros]); eauto with pym.
Qed.

(** C7: whatever happens while the command is supervised (normal exit,
    wall-clock timeout, an exception from [wait] or [killpg], or a signal
    handled inside the call), the handle appended to [active_processes]
    at spawn is gone again when [supervise] returns, and nothing else in
    the registry changed. *)
Theorem supervise_unregisters (name : string) (debug : bool) (w : Z) (e : wenv)
    (s : state) :
  (forall pid, w_popen e = Done pid -> ~ In pid (st_registry s)) ->
  st_registry (fst (supervise name debug w e s)) = st_registry s.
Proof.
  intros Hfresh. unfold supervise, bind at 1.
  pose proof (Keeps_syscall (EOpen (name ++ ".log")%string) (w_open e) s) as K1.
  destruct (syscall _ (w_open e) s) as [s1 [u|x]]; simpl in *; [|exact K1].
  unfold bind at 1.
  pose proof (Keeps_syscall (ERun ("make " ++ make_target debug)%string) (w_popen e) s1) as K2.
  destruct (syscall _ (w_popen e) s1) as [s2 [pid|x]] eqn:Hsp; simpl in *;
    [|rewrite K2; exact K1].
  assert (Hpid : w_popen e = Done pid).
  { revert Hsp. unfold syscall, prim, bind, lift.
    destruct (act _ s1) as [s' [[]|x]]; [|discriminate].
    destruct (w_popen e); simpl; congruence. }
  unfold bind at 1, reg_append. simpl.
  unfold try_finally.
  pose proof (Keeps_wait_block pid w e
    (St (st_registry s2 ++ [pid]) (st_sig s2) (st_trace s2))) as K3.
  destruct (try_except _ _ _ _) as [s3 r3]. simpl in K3.
  unfold reg_remove. simpl. rewrite K3, K2, K1.
  apply remove_first_fresh. apply Hfresh. exact Hpid.
Qed.

(** Witness for C7: a wall-clock timeout starting from an empty registry. *)
Lemma supervise_unregisters_witness :
  (forall pid, w_popen (WEnv (Done tt) (Done 100) Hangs None (Done tt) (Done tt) [] (Done tt))
                 = Done pid -> ~ In pid (st_registry worker_init)) /\
  st_registry (fst (supervise "t" false 10
     (WEnv (Done tt) (Done 100) Hangs None (Done tt) (Done tt) [] (Done tt)) worker_init))
  = st_registry worker_init.
Proof.
  assert (H : forall pid,
             w_popen (WEnv (Done tt) (Done 100) Hangs None (Done tt) (Done tt) [] (Done tt))
             = Done pid -> ~ In pid (st_registry worker_init)).
  { intros pid _ Hin. simpl in Hin. exact Hin. }
  split; [exact H|]. apply (supervise_unregisters "t" false 10 _ worker_init). exact H.
Defined.

End SupervisorFacts.

Module TimeoutFacts.
Import Text Classifier Py Worker SpecReading SupervisorFacts.

Ltac run_m :=
  cbv [supervise syscall prim act tick emit bind lift of_os reg_append try_finally
       try_except reg_remove wait_outcome ret raise is_TimeoutExpired timeout_expired
       run_single_test worker_result worker_init] ; simpl.

(** C2 (counterexample): the supervisor's only report is the exit code,
    so a command that exits within its budget with status 124 is
    reported exactly like a wall-clock expiry: no [timedOut] value can be
    false for one and true for the other. *)
Lemma supervise_report_counterexample :
  timed_out 10 Hangs = true /\ timed_out 10 (Exits 5 124) = false /\
  snd (supervise "t" false 10
         (WEnv (Done tt) (Done 100) Hangs None (Done tt) (Done tt) [] (Done tt)) worker_init)
  = snd (supervise "t" false 10
         (WEnv (Done tt) (Done 100) (Exits 5 124) None (Done tt) (Done tt) [] (Done tt))
         worker_init).
Proof. vm_compute. repeat split. Qed.

(** C2 (amended): on wall-clock expiry the supervisor sends SIGTERM to
    the process group, sleeps 1 s, sends SIGKILL to the group (even if
    that fails) and reports 124; on an exit within the budget it reports
    the real exit code and sends no signal; 124 is the only timeout
    indication. *)
Theorem supervise_outcomes (name : string) (debug : bool) (w : Z) (e : wenv)
    (reg : list Z) (tr : list event) (pid : Z) :
  w_open e = Done tt -> w_popen e = Done pid -> w_wait_exn e = None -> ~ In pid reg ->
  (timed_out w (w_behaviour e) = true -> w_killpg_term e = Done tt ->
     supervise name debug w e (St reg NoSignal tr)
     = (St reg NoSignal (tr ++ [EOpen (name ++ ".log")%string;
                                ERun ("make " ++ make_target debug)%string;
                                EWait pid; EKillPg pid SIGTERM; ESleep 1;
                                EKillPg pid SIGKILL]), Ok 124)) /\
  (forall t code, w_behaviour e = Exits t code -> t <= w ->
     supervise name debug w e (St reg NoSignal tr)
     = (St reg NoSignal (tr ++ [EOpen (name ++ ".log")%string;
                                ERun ("make " ++ make_target debug)%string;
                                EWait pid]), Ok code)).
Proof.
  intros Ho Hp Hw Hfresh.
  destruct e as [eo ep eb ew et ek el ewr]; simpl in *; subst.
  split.
  - intros Hto Ht. subst. destruct eb as [t code|]; simpl in Hto.
    + apply negb_true_iff in Hto. run_m. rewrite Hto. simpl.
      destruct ek; simpl; rewrite remove_first_fresh by exact Hfresh;
        rewrite <- !app_assoc; reflexivity.
    + run_m. destruct ek; simpl; rewrite remove_first_fresh by exact Hfresh;
        rewrite <- !app_assoc; reflexivity.
  - intros t code Hb Hle. subst. run_m.
    apply Z.leb_le in Hle. rewrite Hle. simpl.
    rewrite remove_first_fresh by exact Hfresh. rewrite <- !app_assoc. reflexivity.
Qed.

(** Witness for C2 at a hanging command and at one exiting with 3. *)
Lemma supervise_outcomes_witness :
  supervise "t" false 10
    (WEnv (Done tt) (Done 100) Hangs None (Done tt) (Done tt) [] (Done tt)) (St [] NoSignal [])
  = (St [] NoSignal ([] ++ [EOpen ("t" ++ ".log")%string;
                            ERun ("make " ++ make_target false)%string;
                            EWait 100; EKillPg 100 SIGTERM; ESleep 1; EKillPg 100 SIGKILL]),
     Ok 124) /\
  supervise "t" false 10
    (WEnv (Done tt) (Done 100) (Exits 4 3) None (Done tt) (Done tt) [] (Done tt))
    (St [] NoSignal [])
  = (St [] NoSignal ([] ++ [EOpen ("t" ++ ".log")%string;
                            ERun ("make " ++ make_target false)%string; EWait 100]), Ok 3).
Proof.
  destruct (supervise_outcomes "t" false 10
              (WEnv (Done tt) (Done 100) Hangs None (Done tt) (Done tt) [] (Done tt))
              [] [] 100 eq_refl eq_refl eq_refl (fun H => H)) as [H1 _].
  destruct (supervise_outcomes "t" false 10
              (WEnv (Done tt) (Done 100) (Exits 4 3) None (Done tt) (Done tt) [] (Done tt))
              [] [] 100 eq_refl eq_refl eq_refl (fun H => H)) as [_ H2].
  split; [apply H1; reflexivity | apply (H2 4 3); [reflexivity | lia]].
Defined.

(** C10: a command that exits by itself within its budget with status
    124 is classified TIMEOUT, exactly as when the wall clock expires
    with the same log. *)
Theorem exit_124_is_timeout (test_file : string) (debug : bool) (w t : Z) (e : wenv)
    (pid : Z) :
  w_open e = Done tt -> w_popen e = Done pid -> w_wait_exn e = None ->
  w_killpg_term e = Done tt -> w_write e = Done tt ->
  w_behaviour e = Exits t 124 -> t <= w ->
  worker_result test_file debug w e = Ok (stem test_file, "TIMEOUT") /\
  worker_result test_file debug w (with_behaviour e Hangs)
  = worker_result test_file debug w e.
Proof.
  intros Ho Hp Hw Ht Hwr Hb Hle.
  destruct e as [eo ep eb ew et ek el ewr]; simpl in *; subst.
  unfold with_behaviour; simpl.
  apply Z.leb_le in Hle.
  split.
  - run_m. rewrite Hle. reflexivity.
  - run_m. rewrite Hle. destruct ek; reflexivity.
Qed.

(** Witness for C10. *)
Lemma exit_124_is_timeout_witness :
  worker_result "t.o" false 10
    (WEnv (Done tt) (Done 100) (Exits 5 124) None (Done tt) (Done tt) [] (Done tt))
  = Ok (stem "t.o", "TIMEOUT") /\
  worker_result "t.o" false 10
    (with_behaviour (WEnv (Done tt) (Done 100) (Exits 5 124) None (Done tt) (Done tt) []
                          (Done tt)) Hangs)
  = worker_result "t.o" false 10
      (WEnv (Done tt) (Done 100) (Exits 5 124) None (Done tt) (Done tt) [] (Done tt)).
Proof.
  apply (exit_124_is_timeout "t.o" false 10 5 _ 100); reflexivity || lia.
Defined.

End TimeoutFacts.

Module ResultFacts.
Import Text Classifier Py Worker Driver SpecReading TimeoutFacts.

Ltac split_all :=
  repeat match goal with
         | |- context [match ?x with _ => _ end] => destruct x
         | |- context [if ?x then _ else _] => destruct x
         end.

(** A worker that was not interrupted yields [(stem, status)] or an
    [Exception] (from writing the result file), never [SystemExit]. *)
Lemma worker_result_shape (p : string) (debug : bool) (w : Z) (e : wenv) :
  (exists st, worker_result p debug w e = Ok (stem p, st)) \/
  (exists c m, worker_result p debug w e = Err (PyExc c m)).
Proof.
  destruct e as [eo ep eb ew et ek el ewr].
  destruct eo, ep, eb, ew as [[]|], et, ek, ewr; run_m;
    repeat match goal with
           | |- context [if (?a <=? ?b) then _ else _] => destruct (a <=? b)
           | |- context [if String.eqb ?a ?b then _ else _] => destruct (String.eqb a b)
           end; simpl; eauto.
Qed.

Lemma collect_step_ok (r : gmap string string) (fo : string * res (string * string))
    (reg : list Z) (tr : list event) :
  not_sysexit fo.2 = true ->
  exists tr', collect_step r fo (St reg NoSignal tr)
              = (St reg NoSignal tr', Ok (<[out_key fo := out_status fo]> r)).
Proof.
  destruct fo as [tf [[n st]|[c m|code]]]; simpl; intros H; try discriminate;
    eexists; reflexivity.
Qed.

Lemma collect_fold_ok (outs : list (string * res (string * string)))
    (r : gmap string string) (reg : list Z) (tr : list event) :
  Forall (fun fo => not_sysexit fo.2 = true) outs ->
  exists tr', foldM collect_step r outs (St reg NoSignal tr)
    = (St reg NoSignal tr',
       Ok (fold_left (fun r fo => <[out_key fo := out_status fo]> r) outs r)).
Proof.
  revert r tr. induction outs as [|fo outs IH]; intros r tr HF.
  - eexists. reflexivity.
  - inversion HF as [|? ? Hfo Hrest]; subst.
    destruct (collect_step_ok r fo reg tr Hfo) as [tr1 Hs].
    cbn [foldM]. unfold bind. rewrite Hs. apply IH. exact Hrest.
Qed.

Lemma dom_fold_ins (outs : list (string * res (string * string))) (r : gmap string string) :
  dom (fold_left (fun r fo => <[out_key fo := out_status fo]> r) outs r)
  = dom r ∪ list_to_set (map out_key outs).
Proof.
  revert r. induction outs as [|fo outs IH]; intros r; simpl.
  - set_solver.
  - rewrite IH, dom_insert_L. set_solver.
Qed.

Lemma lookup_fold_ins (outs : list (string * res (string * string)))
    (r : gmap string string) (k : string) :
  k ∉ map out_key outs ->
  fold_left (fun r fo => <[out_key fo := out_status fo]> r) outs r !! k = r !! k.
Proof.
  revert r. induction outs as [|fo outs IH]; intros r Hk; simpl; [reflexivity|].
  rewrite IH by set_solver. apply lookup_insert_ne. set_solver.
Qed.

Lemma categorize_lengths (l : list (string * string)) (p f t : list string) :
  let '(p', f', t') := fold_left categorize_step l (p, f, t) in
  (List.length p' + List.length f' + List.length t' = List.length p + List.length f + List.length t + List.length l)%nat.
Proof.
  revert p f t. induction l as [|[n st] l IH]; intros p f t; simpl.
  - lia.
  - destruct (String.eqb st "PASSED"); [|destruct (String.eqb st "TIMEOUT")];
      match goal with
      | |- context [fold_left categorize_step l (?p1, ?f1, ?t1)] =>
          pose proof (IH p1 f1 t1) as H;
          destruct (fold_left categorize_step l (p1, f1, t1)) as [[p' f'] t']
      end; rewrite ?length_app in H; simpl in H; lia.
Qed.

Lemma categorize_total (results : gmap string string) :
  let '(passed, failed, timeouts) := categorize results in
  (List.length passed + List.length failed + List.length timeouts = size results)%nat.
Proof.
  unfold categorize. pose proof (categorize_lengths (map_to_list results) [] [] []) as H.
  destruct (fold_left _ _ _) as [[p f] t]. rewrite length_map_to_list in H. simpl in H. lia.
Qed.

Lemma worker_outs_keys (ps : list string) (envs : string -> wenv) (debug : bool) (w : Z) :
  Forall (fun fo => not_sysexit fo.2 = true)
    (map (fun p => (p, worker_result p debug w (envs p))) ps) /\
  map out_key (map (fun p => (p, worker_result p debug w (envs p))) ps) = map stem ps.
Proof.
  split.
  - apply List.Forall_forall. intros fo Hin. apply List.in_map_iff in Hin.
    destruct Hin as [p [<- _]]. simpl.
    destruct (worker_result_shape p debug w (envs p)) as [[st Hr]|[c [m Hr]]];
      rewrite Hr; reflexivity.
  - rewrite List.map_map. apply List.map_ext. intros p. unfold out_key. simpl.
    destruct (worker_result_shape p debug w (envs p)) as [[st Hr]|[c [m Hr]]];
      rewrite Hr; reflexivity.
Qed.

(** C4 (counterexample): results are keyed by [Path.stem], so two
    submitted binaries [t.S] and [t.o] give one entry: the three lists
    hold one name for two submitted tests. *)
Lemma same_stem_counterexample :
  match collect_loop
          (map (fun p => (p, worker_result p false 10
                  (WEnv (Done tt) (Done 100) (Exits 1 0) None (Done tt) (Done tt) [] (Done tt))))
               ["t.S"; "t.o"]) (St [] NoSignal []) with
  | (_, Ok results) =>
      let '(passed, failed, timeouts) := categorize results in
      (List.length passed + List.length failed + List.length timeouts = 1)%nat
  | (_, Err _) => False
  end /\ List.length ["t.S"; "t.o"] = 2%nat.
Proof. vm_compute. split; reflexivity. Qed.

(** C4 (amended): a run that is not interrupted gets exactly one entry
    per distinct [Path.stem] of the submitted tests, an internal
    exception included (as FAILED); the three lists together have as
    many names as there are distinct stems, i.e. as submitted tests when
    their stems are pairwise distinct. *)
Theorem results_count_distinct_stems (ps : list string) (envs : string -> wenv)
    (debug : bool) (w : Z) :
  exists s' results,
    collect_loop (map (fun p => (p, worker_result p debug w (envs p))) ps)
                 (St [] NoSignal []) = (s', Ok results) /\
    dom results = list_to_set (map stem ps) /\
    (let '(passed, failed, timeouts) := categorize results in
     (List.length passed + List.length failed + List.length timeouts
      = size (list_to_set (map stem ps) : gset string))%nat) /\
    (NoDup (map stem ps) ->
     let '(passed, failed, timeouts) := categorize results in
     (List.length passed + List.length failed + List.length timeouts = List.length ps)%nat).
Proof.
  destruct (worker_outs_keys ps envs debug w) as [HF Hk].
  destruct (collect_fold_ok _ ∅ [] [] HF) as [tr Hc].
  eexists _, _. split; [exact Hc|].
  assert (Hdom : dom (fold_left (fun r fo => <[out_key fo := out_status fo]> r)
                   (map (fun p => (p, worker_result p debug w (envs p))) ps)
                   (∅ : gmap string string)) = list_to_set (map stem ps)).
  { rewrite dom_fold_ins, Hk, dom_empty_L. set_solver. }
  split; [exact Hdom|].
  pose proof (categorize_total (fold_left (fun r fo => <[out_key fo := out_status fo]> r)
                   (map (fun p => (p, worker_result p debug w (envs p))) ps) ∅)) as Ht.
  destruct (categorize _) as [[p f] t].
  rewrite <- size_dom, Hdom in Ht.
  split; [exact Ht|]. intros Hnd. rewrite Ht, size_list_to_set by exact Hnd.
  apply length_map.
Qed.

(** C6 (counterexample): a spawn failure becomes [("t", "FAILED")]; the
    exception text is printed but is in neither field of the result,
    and [main] stores only the status string. *)
Lemma exception_text_counterexample :
  worker_result "t.o" false 10
    (WEnv (Done tt) (Raised "OSError" "spawn failed") Hangs None (Done tt) (Done tt) []
          (Done tt)) = Ok ("t", "FAILED") /\
  contains "spawn failed" "t" = false /\ contains "spawn failed" "FAILED" = false /\
  match collect_loop [("t.o", Err (PyExc "OSError" "spawn failed"))] (St [] NoSignal []) with
  | (_, Ok results) => map_to_list results = [("t", "FAILED")]
  | (_, Err _) => False
  end.
Proof. vm_compute. repeat split. Qed.

(** C6 (amended): an [Exception] raised inside the worker's [try]
    (opening the log, spawning, waiting, or the SIGTERM [killpg]) turns
    into the result [(stem, "FAILED")] once ["FAILED:stem"] has been
    written to the result file; when that write raises in turn, the
    worker raises its exception instead. An [Exception] that escapes the
    worker is caught in [main] and recorded as FAILED under the test's
    stem; the loop then goes on with every remaining future. The
    exception text is only printed, not kept in the result. *)
Theorem exceptions_become_failed :
  (forall (p : string) (debug : bool) (w : Z) (e : wenv),
     supervision_raises w e ->
     (w_write e = Done tt -> worker_result p debug w e = Ok (stem p, "FAILED")) /\
     (forall c m, w_write e = Raised c m -> worker_result p debug w e = Err (PyExc c m))) /\
  (forall (pre : list (string * res (string * string))) (tf c m : string)
          (post : list (string * res (string * string))),
     Forall (fun fo => not_sysexit fo.2 = true) (pre ++ post) ->
     exists s' results,
       collect_loop (pre ++ (tf, Err (PyExc c m)) :: post) (St [] NoSignal [])
         = (s', Ok results) /\
       stem tf ∈ dom results /\
       (forall fo, In fo post -> out_key fo ∈ dom results) /\
       (stem tf ∉ map out_key post -> results !! stem tf = Some "FAILED")).
Proof.
  split.
  - intros p debug w e Hr. unfold supervision_raises in Hr.
    destruct e as [eo ep eb ew et ek el ewr]; simpl in *.
    destruct Hr as [[c [m ->]] | [[-> [c [m ->]]] | [[-> [[pid ->] [c [m [-> Hc]]]]] |
                    [-> [[pid ->] [-> [Hto [c [m ->]]]]]]]]];
      (split; [intros ->|intros c' m' ->]);
      run_m; try reflexivity;
      try (apply String.eqb_neq in Hc; rewrite Hc; reflexivity);
      (destruct eb as [t code|]; simpl in Hto; run_m; [|reflexivity];
       apply negb_true_iff in Hto; rewrite Hto; reflexivity).
  - intros pre tf c m post HF.
    apply List.Forall_app in HF as [Hpre Hpost].
    assert (HF : Forall (fun fo => not_sysexit fo.2 = true)
                   (pre ++ (tf, Err (PyExc c m)) :: post)).
    { apply List.Forall_app. split; [exact Hpre | constructor; [reflexivity | exact Hpost]]. }
    destruct (collect_fold_ok _ ∅ [] [] HF) as [tr Hc].
    eexists _, _. split; [exact Hc|].
    rewrite fold_left_app. cbn [fold_left].
    change (out_key (tf, Err (PyExc c m))) with (stem tf).
    change (out_status (tf, Err (PyExc c m))) with "FAILED".
    rewrite !dom_fold_ins, !dom_insert_L.
    split; [set_solver|]. split.
    + intros fo Hin.
      assert (Hk : out_key fo ∈ map out_key post).
      { apply list_elem_of_In. apply List.in_map. exact Hin. }
      set_solver.
    + intros Hn. rewrite lookup_fold_ins by exact Hn. apply lookup_insert_eq.
Qed.

(** Witness for C6: a spawn failure, and one failing future between two
    good ones. *)
Lemma exceptions_become_failed_witness :
  supervision_raises 10
    (WEnv (Done tt) (Raised "OSError" "spawn failed") Hangs None (Done tt) (Done tt) []
          (Done tt)) /\
  worker_result "t.o" false 10
    (WEnv (Done tt) (Raised "OSError" "spawn failed") Hangs None (Done tt) (Done tt) []
          (Done tt)) = Ok (stem "t.o", "FAILED") /\
  supervision_raises 10
    (WEnv (Raised "OSError" "File name too long") (Done 100) Hangs None (Done tt) (Done tt) []
          (Raised "OSError" "File name too long")) /\
  worker_result "t.o" false 10
    (WEnv (Raised "OSError" "File name too long") (Done 100) Hangs None (Done tt) (Done tt) []
          (Raised "OSError" "File name too long"))
    = Err (PyExc "OSError" "File name too long") /\
  exists s' results,
    collect_loop ([("a.o", Ok ("a", "PASSED"))] ++ ("t.o", Err (PyExc "OSError" "x"))
                    :: [("b.o", Ok ("b", "TIMEOUT"))]) (St [] NoSignal [])
      = (s', Ok results) /\
    stem "t.o" ∈ dom results /\
    (forall fo, In fo [("b.o", Ok ("b", "TIMEOUT"))] -> out_key fo ∈ dom results) /\
    (stem "t.o" ∉ map out_key [("b.o", Ok ("b", "TIMEOUT"))] ->
     results !! stem "t.o" = Some "FAILED").
Proof.
  assert (Hr : supervision_raises 10
    (WEnv (Done tt) (Raised "OSError" "spawn failed") Hangs None (Done tt) (Done tt) []
          (Done tt))).
  { right. left. split; [reflexivity|]. exists "OSError", "spawn failed". reflexivity. }
  assert (Hr2 : supervision_raises 10
    (WEnv (Raised "OSError" "File name too long") (Done 100) Hangs None (Done tt) (Done tt) []
          (Raised "OSError" "File name too long"))).
  { left. exists "OSError", "File name too long". reflexivity. }
  split; [exact Hr|]. split.
  - apply (proj1 (proj1 exceptions_become_failed "t.o" false 10 _ Hr)). reflexivity.
  - split; [exact Hr2|]. split.
    + apply (proj2 (proj1 exceptions_become_failed "t.o" false 10 _ Hr2)). reflexivity.
    + apply (proj2 exceptions_become_failed). repeat constructor.
Defined.

End ResultFacts.

Module GroupFacts.
Import Py Worker OS.

Lemma deliver_pgid (sig : Z) (q : proc) : p_pgid (deliver sig q) = p_pgid q.
Proof. unfold deliver. destruct (_ || _); reflexivity. Qed.

(** The escalation of the timeout path ([killpg] SIGTERM, sleep,
    [killpg] SIGKILL) leaves no process of the group running. *)
Lemma timeout_escalation_kills_group (pt : list proc) (g : Z) (q : proc) :
  In q (run_events pt [EKillPg g SIGTERM; ESleep 1; EKillPg g SIGKILL]) ->
  p_pgid q = g -> p_alive q = false.
Proof.
  unfold run_events. simpl. unfold kill_pg.
  intros Hin Hg. apply List.in_map_iff in Hin as [q1 [Hq1 Hin1]].
  apply List.in_map_iff in Hin1 as [q0 [Hq0 _]]. subst q q1.
  destruct q0 as [pid pg al tk]. unfold deliver, SIGKILL, SIGTERM in *.
  destruct (pg =? g) eqn:E; destruct al, tk; cbn in Hg |- *;
    repeat (first [rewrite E in Hg | rewrite E | progress cbn in Hg |- *]);
    try reflexivity; apply Z.eqb_neq in E; congruence.
Qed.

(** C3: the interrupt handler signals each tracked handle by pid
    ([Popen.terminate]/[Popen.kill]), not its process group: with the
    [make] leader 100 tracked and the simulator 101 in the same group,
    the handler leaves 101 running. *)
Theorem cleanup_handler_spares_group_member :
  handler_trace [100]
    = [EPrint "Cleaning up..."; ETerminate 100; ESleep 1; EKill 100] /\
  run_events [Proc 100 100 true true; Proc 101 100 true true] (handler_trace [100])
    = [Proc 100 100 false true; Proc 101 100 true true].
Proof. vm_compute. split; reflexivity. Qed.

End GroupFacts.

Module InterruptFacts.
Import Py Worker Driver MProps.

Create HintDb sigexit.

Lemma EOS_ret {A} (a : A) : ExitsOnSignal (ret a).
Proof. intros s H1 H2. contradiction. Qed.

Lemma EOS_raise {A} (x : exn) : ExitsOnSignal (A := A) (raise x).
Proof. intros s H1 H2. contradiction. Qed.

Lemma EOS_lift {A} (r : res A) : ExitsOnSignal (lift r).
Proof. intros s H1 H2. contradiction. Qed.

Lemma EOS_emit (ev : event) : ExitsOnSignal (emit ev).
Proof. intros s H1 H2. contradiction. Qed.

Lemma EOS_tick : ExitsOnSignal tick.
Proof.
  intros [r sg t] H1 H2. simpl in *.
  destruct sg as [|[|n]|]; simpl in *; congruence.
Qed.

Lemma EOS_bind {A B} (m : M A) (k : A -> M B) :
  ExitsOnSignal m -> (forall a, ExitsOnSignal (k a)) -> ExitsOnSignal (bind m k).
Proof.
  intros Hm Hk s H1 H2. unfold bind in *. specialize (Hm s H1).
  destruct (m s) as [s1 [a|x]] eqn:E; simpl in *.
  - destruct (sigstate_eq_dec (st_sig s1) Fired) as [F|F].
    + specialize (Hm F). discriminate.
    + apply Hk; assumption.
  - specialize (Hm H2). congruence.
Qed.

Lemma EOS_try_except {A} (m : M A) (c : exn -> bool) (h : exn -> M A) :
  c (SysExit 130) = false ->
  ExitsOnSignal m -> (forall x, ExitsOnSignal (h x)) -> ExitsOnSignal (try_except m c h).
Proof.
  intros Hc Hm Hh s H1 H2. unfold try_except in *. specialize (Hm s H1).
  destruct (m s) as [s1 [a|x]] eqn:E; simpl in *; [apply Hm; exact H2|].
  destruct (c x) eqn:Ex.
  - destruct (sigstate_eq_dec (st_sig s1) Fired) as [F|F].
    + specialize (Hm F). injection Hm as ->. congruence.
    + apply Hh; assumption.
  - apply Hm. exact H2.
Qed.

Lemma EOS_try_finally {A} (m : M A) (fin : M unit) :
  ExitsOnSignal m -> ExitsOnSignal fin -> QuietAfterSignal fin ->
  ExitsOnSignal (try_finally m fin).
Proof.
  intros Hm Hf Hq s H1 H2. unfold try_finally in *. specialize (Hm s H1).
  destruct (m s) as [s1 r1] eqn:E; simpl in *.
  destruct (sigstate_eq_dec (st_sig s1) Fired) as [F|F].
  - destruct (Hq s1 F) as [u Hu].
    destruct (fin s1) as [s2 r2]; simpl in *; subst r2. apply Hm. exact F.
  - specialize (Hf s1 F).
    destruct (fin s1) as [s2 [u|x]]; simpl in *; specialize (Hf H2);
      [discriminate | congruence].
Qed.

Lemma EOS_foldM {A B} (f : B -> A -> M B) (acc : B) (l : list A) :
  (forall b x, ExitsOnSignal (f b x)) -> ExitsOnSignal (foldM f acc l).
Proof.
  intros Hf. revert acc. induction l as [|x l IH]; intros acc; simpl.
  - apply EOS_ret.
  - apply EOS_bind; [apply Hf | intros; apply IH].
Qed.

Lemma EOS_act (ev : event) : ExitsOnSignal (act ev).
Proof. apply EOS_bind; [apply EOS_tick | intros; apply EOS_emit]. Qed.

Lemma EOS_prim {A} (ev : event) (r : res A) : ExitsOnSignal (prim ev r).
Proof. apply EOS_bind; [apply EOS_act | intros; apply EOS_lift]. Qed.

Lemma EOS_syscall {A} (ev : event) (r : osres A) : ExitsOnSignal (syscall ev r).
Proof. apply EOS_prim. Qed.

Lemma EOS_sys_exit {A} (c : Z) : ExitsOnSignal (A := A) (sys_exit c).
Proof. apply EOS_raise. Qed.

Lemma Quiet_act (ev : event) : QuietAfterSignal (act ev).
Proof. intros [r sg t] H. simpl in H. subst. exists tt. reflexivity. Qed.

#[local] Hint Resolve EOS_ret EOS_raise EOS_lift EOS_emit EOS_tick EOS_bind EOS_foldM
  EOS_act EOS_prim EOS_syscall EOS_sys_exit EOS_try_finally Quiet_act : sigexit.

Lemma EOS_collect_tests listing glob_match exclude_pattern search :
  ExitsOnSignal (collect_tests listing glob_match exclude_pattern search).
Proof.
  unfold collect_tests. apply EOS_foldM. intros tests en. unfold collect_tests_step.
  apply EOS_bind; [apply EOS_act|intros _].
  destruct (negb en.2); [apply EOS_ret|].
  destruct (String.eqb exclude_pattern ""); [apply EOS_ret|].
  destruct (search en.1) as [[]|]; eauto with sigexit.
Qed.

Lemma EOS_collect_loop outs : ExitsOnSignal (collect_loop outs).
Proof.
  unfold collect_loop. apply EOS_foldM. intros results [tf o]. unfold collect_step.
  apply EOS_try_except; [reflexivity | |]; intros; eauto with sigexit.
Qed.

Lemma EOS_report_and_exit a e results : ExitsOnSignal (report_and_exit a e results).
Proof.
  unfold report_and_exit. destruct (categorize results) as [[p f] t].
  apply EOS_bind; [apply EOS_act | intros _].
  apply EOS_bind.
  - destruct (a_no_compare a); [apply EOS_ret|].
    apply EOS_bind; [apply EOS_act | intros _].
    destruct (m_compare_exists e); eauto with sigexit.
  - intros _. destruct f, t; eauto with sigexit.
Qed.

#[local] Hint Resolve EOS_collect_tests EOS_collect_loop EOS_report_and_exit : sigexit.

Lemma EOS_main_prog a e : ExitsOnSignal (main_prog a e).
Proof.
  unfold main_prog.
  destruct (negb (m_riscv_dv_exists e)); [eauto with sigexit|].
  apply EOS_bind.
  - destruct (a_gen_vector a); [|apply EOS_ret].
    apply EOS_bind; [apply EOS_act | intros _].
    destruct (m_gen_script_exists e); eauto with sigexit.
  - intros _. destruct (negb (m_binary_dir_exists e)); [eauto with sigexit|].
    apply EOS_bind; [apply EOS_collect_tests|]. intros [|t ts]; [eauto with sigexit|].
    apply EOS_bind; [apply EOS_act | intros _].
    apply EOS_try_finally; [|apply EOS_act|apply Quiet_act].
    apply EOS_bind; [apply EOS_act | intros _].
    apply EOS_bind; [apply EOS_try_finally; eauto with sigexit | intros results].
    eauto with sigexit.
Qed.

(** C5: when SIGINT or SIGTERM arrives during the run (after [n] more
    interruptible operations of [main]) and the handler runs, the program
    ends with the handler's [SystemExit(130)]: [except Exception] does not
    catch it, the [finally] blocks (pool shutdown, removal of the result
    directory) re-raise it, so the exit status is 130, never 0 or 1. *)
Theorem interrupt_exits_130 (a : margs) (e : menv) (n : nat) :
  st_sig (fst (main_run a e (Pending n))) = Fired ->
  snd (main_run a e (Pending n)) = Err (SysExit 130) /\
  exit_status (snd (main_run a e (Pending n))) = 130.
Proof.
  intros H. unfold main_run in *.
  assert (Hr : snd (main_prog a e (St [] (Pending n) [])) = Err (SysExit 130)).
  { apply EOS_main_prog; [discriminate | exact H]. }
  split; [exact Hr|]. rewrite Hr. reflexivity.
Qed.

(** Witness for C5: an interrupt during the worker pool of a run with
    two tests. *)
Lemma interrupt_exits_130_witness :
  let e := MEnv true false (Done tt) true [("a.o", true); ("b.o", true)]
             (fun _ => true) (fun _ => Some false) (fun l => l)
             (fun t => Ok (t, "PASSED")) true (Done 0) in
  let a := MArgs false 10 false false "" in
  st_sig (fst (main_run a e (Pending 4))) = Fired /\
  snd (main_run a e (Pending 4)) = Err (SysExit 130) /\
  exit_status (snd (main_run a e (Pending 4))) = 130.
Proof.
  intros e a.
  assert (H : st_sig (fst (main_run a e (Pending 4))) = Fired) by (vm_compute; reflexivity).
  split; [exact H|]. apply (interrupt_exits_130 a e 4). exact H.
Defined.

End InterruptFacts.

Module CollectFacts.
Import Text Classifier Py Worker Driver SpecReading.

Lemma string_compare_le_trans (s1 s2 s3 : string) :
  (s1 ?= s2)%string <> Gt -> (s2 ?= s3)%string <> Gt -> (s1 ?= s3)%string <> Gt.
Proof.
  revert s2 s3.
  induction s1 as [|a s1 IH]; intros [|b s2] [|c s3]; cbn; try congruence.
  unfold Ascii.compare.
  destruct (N.compare_spec (N_of_ascii a) (N_of_ascii b)) as [Hab|Hab|Hab];
  destruct (N.compare_spec (N_of_ascii b) (N_of_ascii c)) as [Hbc|Hbc|Hbc];
  destruct (N.compare_spec (N_of_ascii a) (N_of_ascii c)) as [Hac|Hac|Hac];
  try congruence; try lia; eauto.
Qed.

#[local] Instance name_le_trans : Transitive name_le.
Proof.
  intros [x ?] [y ?] [z ?]. unfold name_le, String.leb; cbn.
  destruct (x ?= y)%string eqn:E1; try discriminate;
  destruct (y ?= z)%string eqn:E2; try discriminate; intros _ _;
  destruct (x ?= z)%string eqn:E3; try reflexivity;
  exfalso; refine (string_compare_le_trans x y z _ _ E3); congruence.
Qed.

#[local] Instance name_le_total : Total name_le.
Proof. intros [x ?] [y ?]. unfold name_le. apply String.leb_total. Qed.

Lemma collect_step_valid exclude_pattern search acc en reg tr :
  (exclude_pattern = "" \/ forall n, search n <> None) ->
  collect_tests_step exclude_pattern search acc en (St reg NoSignal tr)
  = (St reg NoSignal (tr ++ [EStat en.1]),
     Ok (if kept exclude_pattern search en then acc ++ [en.1] else acc)).
Proof.
  intros Hv. destruct en as [n b]. unfold collect_tests_step, kept. cbn.
  destruct b; cbn; [|reflexivity].
  destruct (String.eqb_spec exclude_pattern ""); cbn; [reflexivity|].
  destruct Hv as [Hv|Hv]; [congruence|]. specialize (Hv n).
  destruct (search n) as [[]|]; [reflexivity|reflexivity|congruence].
Qed.

Lemma collect_fold_valid exclude_pattern search :
  (exclude_pattern = "" \/ forall n, search n <> None) ->
  forall l acc reg tr, exists tr',
    foldM (collect_tests_step exclude_pattern search) acc l (St reg NoSignal tr)
    = (St reg NoSignal tr',
       Ok (acc ++ map fst (List.filter (kept exclude_pattern search) l))).
Proof.
  intros Hv l. induction l as [|en l IH]; intros acc reg tr.
  - exists tr. cbn. rewrite app_nil_r. reflexivity.
  - cbn [foldM]. unfold bind at 1. rewrite collect_step_valid by exact Hv.
    cbn [List.filter].
    destruct (kept exclude_pattern search en).
    + destruct (IH (acc ++ [en.1]) reg (tr ++ [EStat en.1])) as [tr' Htr].
      exists tr'. rewrite Htr. cbn. rewrite <- app_assoc. reflexivity.
    + destruct (IH acc reg (tr ++ [EStat en.1])) as [tr' Htr].
      exists tr'. exact Htr.
Qed.

Lemma collect_fold_invalid exclude_pattern search :
  exclude_pattern <> "" -> (forall n, search n = None) ->
  forall l acc reg tr, (exists n, In (n, true) l) ->
  exists tr',
    foldM (collect_tests_step exclude_pattern search) acc l (St reg NoSignal tr)
    = (St reg NoSignal (tr ++ tr'), Err (SysExit 1)) /\
    In (EPrint "[WARNING] Invalid exclude pattern") tr' /\
    Forall (fun ev => collection_event ev = true) tr'.
Proof.
  intros Hne Hs l. induction l as [|[n0 b0] l IH]; intros acc reg tr [n Hn].
  - destruct Hn.
  - cbn [foldM]. unfold bind at 1. unfold collect_tests_step at 1. destruct b0.
    + exists [EStat n0; EPrint "[WARNING] Invalid exclude pattern"].
      cbn. rewrite Hs. apply String.eqb_neq in Hne. rewrite Hne. cbn.
      rewrite <- app_assoc. split; [reflexivity|]. split; [right; left; reflexivity|].
      repeat constructor.
    + destruct Hn as [Hn|Hn]; [congruence|].
      destruct (IH acc reg (tr ++ [EStat n0]) (ex_intro _ n Hn)) as [tr' (Htr & Hw & Hf)].
      exists (EStat n0 :: tr'). cbn. rewrite Htr. rewrite <- app_assoc.
      split; [reflexivity|]. split; [right; exact Hw|].
      constructor; [reflexivity|exact Hf].
Qed.

Lemma collect_fold_nofile exclude_pattern search :
  forall l acc reg tr, (forall en, In en l -> en.2 = false) ->
  exists tr',
    foldM (collect_tests_step exclude_pattern search) acc l (St reg NoSignal tr)
    = (St reg NoSignal (tr ++ tr'), Ok acc) /\
    Forall (fun ev => is_stat ev = true) tr'.
Proof.
  intros l. induction l as [|[n0 b0] l IH]; intros acc reg tr Hl.
  - exists []. rewrite app_nil_r. split; [reflexivity|constructor].
  - assert (Hb : b0 = false) by exact (Hl (n0, b0) (or_introl eq_refl)). subst b0.
    cbn [foldM]. unfold bind at 1. unfold collect_tests_step at 1.
    destruct (IH acc reg (tr ++ [EStat n0])) as [tr' [Htr Hf]].
    { intros en Hin. apply Hl. right. exact Hin. }
    exists (EStat n0 :: tr'). cbn. rewrite Htr. rewrite <- app_assoc.
    split; [reflexivity|]. constructor; [reflexivity|exact Hf].
Qed.

Lemma in_globbed (listing : list (string * bool)) (glob_match : string -> bool) en :
  In en (merge_sort name_le (filter (fun en => glob_match en.1) listing))
  <-> In en listing /\ glob_match en.1 = true.
Proof.
  rewrite <- !list_elem_of_In.
  rewrite (merge_sort_Permutation name_le (filter (fun en => glob_match en.1) listing)).
  rewrite list_elem_of_filter. rewrite Is_true_true. tauto.
Qed.

Lemma StronglySorted_filter_bool {A} (R : A -> A -> Prop) (f : A -> bool) l :
  StronglySorted R l -> StronglySorted R (List.filter f l).
Proof.
  induction 1 as [|x l Hs IH Hf]; cbn; [constructor|].
  destruct (f x); [|exact IH]. constructor; [exact IH|].
  apply List.Forall_forall. intros y Hy. apply filter_In in Hy as [Hy _].
  exact (proj1 (List.Forall_forall _ _) Hf y Hy).
Qed.

Lemma StronglySorted_names (l : list (string * bool)) :
  StronglySorted name_le l -> StronglySorted (fun x y => String.leb x y = true) (map fst l).
Proof.
  induction 1 as [|x l Hs IH Hf]; cbn; constructor; [exact IH|].
  apply List.Forall_map. exact Hf.
Qed.

(** C8.  The exclusion expression, as [collect_tests] and [main] handle
    it.  With no expression or a valid one, collection returns, in sorted
    order, exactly the glob-matching regular files whose base name the
    expression does not match.  With an invalid one, the warning is printed
    and the run exits with status 1 before any test is started, but only
    when a glob-matching regular file exists: otherwise the expression is
    never compiled, collection returns no test and the run stops with
    "No tests found!" instead. *)
Theorem exclude_pattern_handling (a : margs) (e : menv) :
  ((a_exclude a = "" \/ forall n, m_search e n <> None) ->
   exists tests tr,
     collect_tests (m_listing e) (m_glob e) (a_exclude a) (m_search e) (St [] NoSignal [])
       = (St [] NoSignal tr, Ok tests) /\
     Sorted (fun x y => String.leb x y = true) tests /\
     (forall n, In n tests <->
        In (n, true) (m_listing e) /\ m_glob e n = true /\
        (a_exclude a = "" \/ m_search e n = Some false))) /\
  (m_riscv_dv_exists e = true -> a_gen_vector a = false -> m_binary_dir_exists e = true ->
   a_exclude a <> "" -> (forall n, m_search e n = None) ->
   ((exists n, In (n, true) (m_listing e) /\ m_glob e n = true) ->
    exists tr, main_run a e NoSignal = (St [] NoSignal tr, Err (SysExit 1)) /\
      In (EPrint "[WARNING] Invalid exclude pattern") tr /\
      Forall (fun ev => collection_event ev = true) tr) /\
   ((forall n, In (n, true) (m_listing e) -> m_glob e n = false) ->
    exists tr, main_run a e NoSignal
      = (St [] NoSignal (tr ++ [EPrint "No tests found!"]), Err (SysExit 1)) /\
      Forall (fun ev => is_stat ev = true) tr)).
Proof.
  set (globbed := merge_sort name_le (filter (fun en => m_glob e en.1) (m_listing e))).
  split; [|intros Hr Hg Hb Hne Hs; split].
  - intros Hv.
    destruct (collect_fold_valid _ _ Hv globbed [] [] []) as [tr Htr].
    rewrite app_nil_l in Htr.
    eexists _, tr. split; [unfold collect_tests; exact Htr|]. split.
    + apply StronglySorted_Sorted. apply StronglySorted_names.
      apply StronglySorted_filter_bool. apply (StronglySorted_merge_sort name_le).
    + intros n. rewrite in_map_iff. split.
      * intros [[n' b] [Hn Hin]]. cbn in Hn; subst n'.
        apply filter_In in Hin as [Hin Hk]. apply in_globbed in Hin as [Hin Hgl].
        unfold kept in Hk; cbn in Hk, Hgl.
        destruct b; [|discriminate]. cbn in Hk. apply orb_true_iff in Hk.
        split; [exact Hin|]. split; [exact Hgl|].
        destruct Hk as [Hk|Hk]; [left; apply String.eqb_eq, Hk|right].
        destruct (m_search e n) as [[]|]; congruence.
      * intros (Hin & Hgl & Hx). exists (n, true). split; [reflexivity|].
        apply filter_In. split; [apply in_globbed; split; assumption|].
        unfold kept; cbn. destruct Hx as [Hx|Hx]; [rewrite Hx; reflexivity|].
        rewrite Hx. apply orb_true_r.
  - intros [n [Hin Hgl]].
    destruct (collect_fold_invalid _ _ Hne Hs globbed [] [] [])
      as [tr (Htr & Hw & Hf)].
    { exists n. apply in_globbed. split; assumption. }
    rewrite app_nil_l in Htr.
    assert (Hc : collect_tests (m_listing e) (m_glob e) (a_exclude a) (m_search e)
                   (St [] NoSignal []) = (St [] NoSignal tr, Err (SysExit 1)))
      by (unfold collect_tests; exact Htr).
    exists tr. split; [|split; assumption].
    unfold main_run, main_prog. rewrite Hr, Hg, Hb. cbv [negb bind ret].
    rewrite Hc. reflexivity.
  - intros Hno.
    destruct (collect_fold_nofile (a_exclude a) (m_search e) globbed [] [] [])
      as [tr (Htr & Hf)].
    { intros [n b] Hin. apply in_globbed in Hin as [Hin Hgl]. cbn in *.
      destruct b; [|reflexivity]. rewrite (Hno n Hin) in Hgl. discriminate. }
    rewrite app_nil_l in Htr.
    assert (Hc : collect_tests (m_listing e) (m_glob e) (a_exclude a) (m_search e)
                   (St [] NoSignal []) = (St [] NoSignal tr, Ok []))
      by (unfold collect_tests; exact Htr).
    exists tr. split; [|exact Hf].
    unfold main_run, main_prog. rewrite Hr, Hg, Hb. cbv [negb bind ret].
    rewrite Hc. reflexivity.
Qed.

(** C8, counterexample.  An invalid expression ["("] with no
    glob-matching regular file in the directory: [re.search] is never
    called, no warning is printed and the run ends with "No tests
    found!". *)
Lemma invalid_exclude_unreported_counterexample :
  main_run (MArgs false 3600 false false "(")
    (MEnv true false (Done tt) true [("README", true)]
       (fun n => String.eqb (substring (String.length n - 2) 2 n) ".o")
       (fun _ => None) (fun l => l) (fun t => Ok (t, "PASSED")) true (Done 0))
    NoSignal
  = (St [] NoSignal [EPrint "No tests found!"], Err (SysExit 1)).
Proof. vm_compute. reflexivity. Qed.

(** Splitting a list of (name, status) pairs leaves [failed] and
    [timeouts] empty exactly when every status is "PASSED". *)
Lemma categorize_clean l p f t :
  (fold_left categorize_step l (p, f, t)).1.2 = [] /\
  (fold_left categorize_step l (p, f, t)).2 = []
  <-> f = [] /\ t = [] /\ Forall (uncurry (fun (_ : string) st => st = "PASSED")) l.
Proof.
  revert p f t. induction l as [|[k v] l IH]; intros p f t; cbn.
  - split; [intros [H1 H2]; repeat split; auto|intros (H1 & H2 & _); auto].
  - destruct (String.eqb_spec v "PASSED") as [Hv|Hv].
    + rewrite IH. split.
      * intros (H1 & H2 & H3). repeat split; auto.
      * intros (H1 & H2 & H3). inversion H3; subst. auto.
    + destruct (String.eqb v "TIMEOUT"); rewrite IH; split.
      * intros (_ & Ht & _). apply app_eq_nil in Ht as [_ Ht]. discriminate.
      * intros (_ & _ & H3). inversion H3; subst. cbn in *. congruence.
      * intros (Hf & _ & _). apply app_eq_nil in Hf as [_ Hf]. discriminate.
      * intros (_ & _ & H3). inversion H3; subst. cbn in *. congruence.
Qed.

Lemma report_and_exit_result a e results reg tr :
  (compare_starts a e = true /\
   snd (report_and_exit a e results (St reg NoSignal tr))
   = Err (SysExit (if bool_decide ((categorize results).1.2 = [] /\
                                   (categorize results).2 = []) then 0 else 1))) \/
  (compare_starts a e = false /\
   exists c m, snd (report_and_exit a e results (St reg NoSignal tr)) = Err (PyExc c m)).
Proof.
  unfold report_and_exit, compare_starts.
  destruct (categorize results) as [[p f] t]. cbn.
  destruct (a_no_compare a); cbn [orb];
    [|destruct (m_compare_exists e); cbn [negb orb];
      [destruct (m_compare e) as [z|c m]|]].
  - left. split; [reflexivity|]. destruct f, t; cbn; reflexivity.
  - left. split; [reflexivity|]. destruct f, t; cbn; reflexivity.
  - right. split; [reflexivity|]. exists c, m. reflexivity.
  - left. split; [reflexivity|]. destruct f, t; cbn; reflexivity.
Qed.

(** C9 (amended).  Once the results are in (SIGINT/SIGTERM not
    delivered), the run exits with 0 if and only if [failed] and
    [timeouts] are both empty, that is every stored status is "PASSED",
    and the comparison step raised nothing (skipped, [compare_all.py]
    missing, or started whatever its exit status); it exits with 1
    otherwise. *)
Theorem run_exit_status (a : margs) (e : menv) (results : gmap string string)
    (reg : list Z) (tr : list event) :
  let r := snd (report_and_exit a e results (St reg NoSignal tr)) in
  (exit_status r = 0 <->
   ((categorize results).1.2 = [] /\ (categorize results).2 = []) /\
   compare_starts a e = true) /\
  (exit_status r = 0 <->
   map_Forall (fun _ st => st = "PASSED") results /\ compare_starts a e = true) /\
  (exit_status r = 0 \/ exit_status r = 1) /\
  (compare_starts a e = true ->
   (exit_status r = 1 <-> (categorize results).1.2 <> [] \/ (categorize results).2 <> [])).
Proof.
  cbv zeta.
  assert (Hclean : (categorize results).1.2 = [] /\ (categorize results).2 = []
                   <-> map_Forall (fun _ st => st = "PASSED") results).
  { unfold categorize. rewrite categorize_clean, map_Forall_to_list. tauto. }
  rewrite <- Hclean.
  destruct (report_and_exit_result a e results reg tr) as [[Hs ->]|[Hs [c [m ->]]]];
    rewrite Hs; cbn.
  - destruct (bool_decide_reflect ((categorize results).1.2 = [] /\
                                   (categorize results).2 = [])) as [H|H].
    + destruct H as [H1 H2]. rewrite H1, H2.
      split; [tauto|]. split; [tauto|]. split; [left; reflexivity|].
      intros _. split; [discriminate|intros [?|?]; contradiction].
    + split; [split; [discriminate|tauto]|].
      split; [split; [discriminate|tauto]|]. split; [right; reflexivity|].
      intros _. split; [intros _|reflexivity].
      destruct ((categorize results).1.2); [|left; discriminate].
      destruct ((categorize results).2); [|right; discriminate]. tauto.
  - split; [split; [discriminate|intros [_ H]; discriminate]|].
    split; [split; [discriminate|intros [_ H]; discriminate]|].
    split; [right; reflexivity|]. discriminate.
Qed.

(** C9 (counterexample): every test passes, but [compare_all.py] is
    present and cannot be started ([PermissionError] for a script without
    the execute bit); [subprocess.run] raises outside any [try] and the
    run exits with 1. *)
Lemma run_exit_status_counterexample :
  let e := MEnv true false (Done tt) true [("a.o", true); ("b.o", true)] (fun _ => true)
             (fun _ => Some false) (fun l => l) (fun t => Ok (stem t, "PASSED")) true
             (Raised "PermissionError" "[Errno 13] Permission denied") in
  let a := MArgs false 10 false false "" in
  (forall t, m_worker e t = Ok (stem t, "PASSED")) /\
  snd (main_run a e NoSignal) = Err (PyExc "PermissionError" "[Errno 13] Permission denied") /\
  exit_status (snd (main_run a e NoSignal)) = 1.
Proof.
  intros e a. split; [intros t; reflexivity|]. split; vm_compute; reflexivity.
Qed.

End CollectFacts.

(* ------------------------------------------------------------------ *)
(** ** Further properties of the worker, [Path.stem] and the log check *)
(* ------------------------------------------------------------------ *)
Module WorkerFacts.
Import Text Classifier Py Worker.

Ltac run_w :=
  cbv [supervise syscall prim act tick emit bind lift of_os reg_append try_finally
       try_except reg_remove wait_outcome ret raise is_TimeoutExpired is_Exception
       timeout_expired run_single_test worker_result worker_init] ; simpl.

Ltac split_w :=
  repeat match goal with
         | |- context [if (?a <=? ?b) then _ else _] => destruct (a <=? b)
         | |- context [if String.eqb ?a ?b then _ else _] => destruct (String.eqb a b)
         end.

Ltac find_in := repeat (first [left; reflexivity | right]).

(** X1: every result the worker returns has been written to its result file
    first: [(name, status)] comes with a write of ["status:name"] to
    ["name.result"], the name is the file's stem and the status one of
    the three the runner knows. *)
Theorem worker_result_file_matches (p : string) (debug : bool) (w : Z) (e : wenv)
    (n st : string) :
  worker_result p debug w e = Ok (n, st) ->
  n = stem p /\ (st = "PASSED" \/ st = "FAILED" \/ st = "TIMEOUT") /\
  In (EWrite (n ++ ".result") (st ++ ":" ++ n))
     (st_trace (fst (run_single_test p debug w e worker_init))).
Proof.
  destruct e as [eo ep eb ew et ek el ewr].
  destruct eo, ep, eb, ew as [[]|], et, ek, ewr; run_w; split_w; simpl;
    intros H; try discriminate; injection H as <- <-;
    (split; [reflexivity|]);
    (split; [try (destruct (classify _ _)); simpl; tauto|]);
    find_in.
Qed.

(** X2: writing the result file is never guarded: when [write_text] raises,
    [run_single_test] raises that exception instead of returning a
    status, on the success path and in the [except] branch alike. *)
Theorem worker_write_failure_raises (p : string) (debug : bool) (w : Z) (e : wenv)
    (c m : string) :
  w_write e = Raised c m -> worker_result p debug w e = Err (PyExc c m).
Proof.
  destruct e as [eo ep eb ew et ek el ewr]. simpl. intros ->.
  destruct eo, ep, eb, ew as [[]|], et, ek; run_w; split_w; reflexivity.
Qed.

Lemma worker_result_file_matches_witness :
  let e := WEnv (Done tt) (Done 100) (Exits 3 0) None (Done tt) (Done tt) ["all good"]
                (Done tt) in
  worker_result "t.o" false 10 e = Ok ("t", "PASSED") /\
  "t" = stem "t.o" /\ ("PASSED" = "PASSED" \/ "PASSED" = "FAILED" \/ "PASSED" = "TIMEOUT") /\
  In (EWrite ("t" ++ ".result") ("PASSED" ++ ":" ++ "t"))
     (st_trace (fst (run_single_test "t.o" false 10 e worker_init))).
Proof.
  intros e. assert (H : worker_result "t.o" false 10 e = Ok ("t", "PASSED"))
    by (vm_compute; reflexivity).
  split; [exact H|exact (worker_result_file_matches "t.o" false 10 e "t" "PASSED" H)].
Defined.

Lemma worker_write_failure_raises_witness :
  w_write (WEnv (Done tt) (Done 100) (Exits 3 0) None (Done tt) (Done tt) []
                (Raised "OSError" "disk full")) = Raised "OSError" "disk full" /\
  worker_result "t.o" false 10
    (WEnv (Done tt) (Done 100) (Exits 3 0) None (Done tt) (Done tt) []
          (Raised "OSError" "disk full")) = Err (PyExc "OSError" "disk full").
Proof.
  split; [reflexivity|]. apply worker_write_failure_raises. reflexivity.
Defined.

Lemma string_length_app (a b : string) :
  String.length (a ++ b) = (String.length a + String.length b)%nat.
Proof. induction a as [|c a IH]; simpl; [reflexivity|]. rewrite IH. reflexivity. Qed.

Lemma rfind_dot_app (a b : string) (pos : nat) (best : option nat) :
  rfind_dot (a ++ b) pos best = rfind_dot b (pos + String.length a) (rfind_dot a pos best).
Proof.
  revert pos best. induction a as [|c a IH]; intros pos best; simpl.
  - rewrite Nat.add_0_r. reflexivity.
  - rewrite IH. f_equal. lia.
Qed.

Lemma rfind_dot_nodot (s : string) (pos : nat) (best : option nat) :
  ~ In "."%char (list_ascii_of_string s) -> rfind_dot s pos best = best.
Proof.
  revert pos best. induction s as [|c s IH]; intros pos best H; cbn; [reflexivity|].
  destruct (ascii_dec c "."); [exfalso; apply H; left; congruence|].
  apply IH. intros Hin. apply H. right. exact Hin.
Qed.

Lemma rfind_dot_dot (s : string) (pos : nat) (best : option nat) :
  rfind_dot (String "." s) pos best = rfind_dot s (S pos) (Some pos).
Proof. simpl. destruct (ascii_dec "." ".") as [_|C]; [reflexivity|contradiction C; reflexivity]. Qed.

Lemma substring_prefix (n x : string) : substring 0 (String.length n) (n ++ x) = n.
Proof.
  induction n as [|c n IH]; simpl; [destruct x; reflexivity|]. rewrite IH. reflexivity.
Qed.

(** X3: [Path.stem] as the worker and [main] use it: it removes exactly the
    last suffix ([name.ext] gives [name], for a non-empty [name] and a
    non-empty [ext] without dots); a name without a dot, a name whose only
    dot is its first character (a hidden file such as [.o]) and a name
    ending with a dot are kept whole. *)
Theorem stem_cases :
  (forall n ext : string, n <> "" -> ext <> "" ->
     ~ In "."%char (list_ascii_of_string ext) -> stem (n ++ "." ++ ext)%string = n) /\
  (forall s : string, ~ In "."%char (list_ascii_of_string s) -> stem s = s) /\
  (forall s : string, ~ In "."%char (list_ascii_of_string s) -> stem ("." ++ s)%string = ("." ++ s)%string) /\
  (forall n : string, stem (n ++ ".")%string = (n ++ ".")%string).
Proof.
  split; [|split; [|split]].
  - intros n ext Hn He Hd. unfold stem.
    change ("." ++ ext)%string with (String "." ext).
    rewrite rfind_dot_app, rfind_dot_dot, rfind_dot_nodot by exact Hd.
    rewrite Nat.add_0_l, string_length_app.
    destruct n as [|c n']; [contradiction Hn; reflexivity|].
    destruct ext as [|d ext']; [contradiction He; reflexivity|].
    cbn [String.length].
    replace (Nat.ltb 0 (S (String.length n'))) with true by (symmetry; apply Nat.ltb_lt; lia).
    replace (Nat.ltb (S (String.length n'))
               (S (String.length n') + S (S (String.length ext')) - 1))
      with true by (symmetry; apply Nat.ltb_lt; lia).
    cbn [andb]. exact (substring_prefix (String c n') (String "." (String d ext'))).
  - intros s Hd. unfold stem. rewrite rfind_dot_nodot by exact Hd. reflexivity.
  - intros s Hd. unfold stem. change ("." ++ s)%string with (String "." s).
    rewrite rfind_dot_dot, rfind_dot_nodot by exact Hd. reflexivity.
  - intros n. unfold stem. rewrite rfind_dot_app. change "."%string with (String "." "").
    rewrite rfind_dot_dot. cbn [rfind_dot].
    rewrite Nat.add_0_l, string_length_app. cbn [String.length].
    replace (Nat.ltb (String.length n) (String.length n + 1 - 1)) with false
      by (symmetry; apply Nat.ltb_ge; lia).
    destruct (Nat.ltb 0 (String.length n)); reflexivity.
Qed.

(** X4: the runner's error test ([Error:|Assertion failed], compiled with
    [re.IGNORECASE] because its text contains "error") gives the same
    answer on two logs whose lines agree up to upper/lower case, so
    [ERROR:] counts like [Error:]; the max-cycle marker test is
    case-sensitive and does not. *)
Theorem log_check_case :
  (forall l1 l2 : list string, map lower l1 = map lower l2 ->
     check_log_for_pattern (Some l1) error_pat = check_log_for_pattern (Some l2) error_pat) /\
  (exists l1 l2 : list string, map lower l1 = map lower l2 /\
     check_log_for_pattern (Some l1) fatal_ps <> check_log_for_pattern (Some l2) fatal_ps).
Proof.
  split.
  - assert (Hi : ignorecase error_pat = true) by reflexivity.
    induction l1 as [|x l1 IH]; intros [|y l2] H; try discriminate; [reflexivity|].
    injection H as Hxy Hl. cbn [check_log_for_pattern existsb].
    specialize (IH l2 Hl). cbn [check_log_for_pattern] in IH. rewrite IH.
    unfold regex_search. rewrite Hi, Hxy. reflexivity.
  - exists ["Fatal: TestDriver at time 10 ps"], ["fatal: testdriver at time 10 ps"].
    split; [reflexivity|]. vm_compute. discriminate.
Qed.

End WorkerFacts.

(* ------------------------------------------------------------------ *)
(** ** [main] and its temporary result directory *)
(* ------------------------------------------------------------------ *)
Module CleanupFacts.
Import Py Worker Driver RunProps MainEntry.

Create HintDb ext.

Lemma act_nosig (ev : event) (r : list Z) (tr : list event) :
  act ev (St r NoSignal tr) = (St r NoSignal (tr ++ [ev]), Ok tt).
Proof. reflexivity. Qed.

Lemma Ext_ret {A} (a : A) : Ext (ret a).
Proof. intros s H. split; [exact H|]. exists []. rewrite app_nil_r. reflexivity. Qed.

Lemma Ext_raise {A} (x : exn) : Ext (A := A) (raise x).
Proof. intros s H. split; [exact H|]. exists []. rewrite app_nil_r. reflexivity. Qed.

Lemma Ext_lift {A} (r : res A) : Ext (lift r).
Proof. intros s H. split; [exact H|]. exists []. rewrite app_nil_r. reflexivity. Qed.

Lemma Ext_act (ev : event) : Ext (act ev).
Proof.
  intros [r sg tr] H. simpl in H. subst sg. rewrite act_nosig.
  split; [reflexivity|]. exists [ev]. reflexivity.
Qed.

Lemma Ext_bind {A B} (m : M A) (k : A -> M B) :
  Ext m -> (forall a, Ext (k a)) -> Ext (bind m k).
Proof.
  intros Hm Hk s H. unfold bind. destruct (Hm s H) as [H1 [tr1 T1]].
  destruct (m s) as [s1 [a|x]]; simpl in *.
  - destruct (Hk a s1 H1) as [H2 [tr2 T2]]. split; [exact H2|].
    exists (tr1 ++ tr2). rewrite T2, T1, app_assoc. reflexivity.
  - split; [exact H1|]. exists tr1. exact T1.
Qed.

Lemma Ext_prim {A} (ev : event) (r : res A) : Ext (prim ev r).
Proof. apply Ext_bind; [apply Ext_act | intros; apply Ext_lift]. Qed.

Lemma Ext_syscall {A} (ev : event) (r : osres A) : Ext (syscall ev r).
Proof. apply Ext_prim. Qed.

Lemma Ext_sys_exit {A} (c : Z) : Ext (A := A) (sys_exit c).
Proof. apply Ext_raise. Qed.

Lemma Ext_try_except {A} (m : M A) (c : exn -> bool) (h : exn -> M A) :
  Ext m -> (forall x, Ext (h x)) -> Ext (try_except m c h).
Proof.
  intros Hm Hh s H. unfold try_except. destruct (Hm s H) as [H1 [tr1 T1]].
  destruct (m s) as [s1 [a|x]]; simpl in *; [split; [exact H1|exists tr1; exact T1]|].
  destruct (c x); simpl; [|split; [exact H1|exists tr1; exact T1]].
  destruct (Hh x s1 H1) as [H2 [tr2 T2]]. split; [exact H2|].
  exists (tr1 ++ tr2). rewrite T2, T1, app_assoc. reflexivity.
Qed.

Lemma Ext_try_finally {A} (m : M A) (fin : M unit) :
  Ext m -> Ext fin -> Ext (try_finally m fin).
Proof.
  intros Hm Hf s H. unfold try_finally. destruct (Hm s H) as [H1 [tr1 T1]].
  destruct (m s) as [s1 r1]; simpl in *.
  destruct (Hf s1 H1) as [H2 [tr2 T2]].
  destruct (fin s1) as [s2 [u|x]]; simpl in *;
    (split; [exact H2|exists (tr1 ++ tr2); rewrite T2, T1, app_assoc; reflexivity]).
Qed.

Lemma Ext_foldM {A B} (f : B -> A -> M B) (acc : B) (l : list A) :
  (forall b x, Ext (f b x)) -> Ext (foldM f acc l).
Proof.
  intros Hf. revert acc. induction l as [|x l IH]; intros acc; simpl.
  - apply Ext_ret.
  - apply Ext_bind; [apply Hf | intros; apply IH].
Qed.

#[local] Hint Resolve Ext_ret Ext_raise Ext_lift Ext_act Ext_bind Ext_prim Ext_syscall
  Ext_sys_exit Ext_try_except Ext_try_finally Ext_foldM : ext.

Lemma Ext_collect_loop outs : Ext (collect_loop outs).
Proof.
  unfold collect_loop. apply Ext_foldM. intros results [tf o]. unfold collect_step.
  eauto with ext.
Qed.

Lemma Ext_report_and_exit a e results : Ext (report_and_exit a e results).
Proof.
  unfold report_and_exit. destruct (categorize results) as [[p f] t].
  apply Ext_bind; [apply Ext_act | intros _].
  apply Ext_bind.
  - destruct (a_no_compare a); [apply Ext_ret|].
    apply Ext_bind; [apply Ext_act | intros _].
    destruct (m_compare_exists e); eauto with ext.
  - intros _. destruct f, t; eauto with ext.
Qed.

Lemma Before_ret {A} (a : A) : Before (ret a).
Proof.
  intros s H. split; [exact H|]. split.
  - exists []. rewrite app_nil_r. split; [reflexivity|intros []].
  - intros x Hx. discriminate.
Qed.

Lemma Before_sys_exit1 {A} : Before (A := A) (sys_exit 1).
Proof.
  intros s H. split; [exact H|]. split.
  - exists []. rewrite app_nil_r. split; [reflexivity|intros []].
  - intros x Hx. injection Hx as <-. reflexivity.
Qed.

Lemma Before_syscall {A} (ev : event) (r : osres A) : ev <> EMkdir -> Before (syscall ev r).
Proof.
  intros Hev [rg sg tr] H. simpl in H. subst sg. split; [reflexivity|]. split.
  - exists [ev]. split; [reflexivity|]. intros [Hin|[]]. congruence.
  - intros x Hx. destruct r as [v|c m]; simpl in Hx; [discriminate|].
    injection Hx as <-. reflexivity.
Qed.

Lemma Before_act (ev : event) : ev <> EMkdir -> Before (act ev).
Proof.
  intros Hev [rg sg tr] H. simpl in H. subst sg. rewrite act_nosig.
  split; [reflexivity|]. split.
  - exists [ev]. split; [reflexivity|]. intros [Hin|[]]. congruence.
  - intros x Hx. discriminate.
Qed.

Lemma Before_bind {A B} (m : M A) (k : A -> M B) :
  Before m -> (forall a, Before (k a)) -> Before (bind m k).
Proof.
  intros Hm Hk s H. unfold bind. destruct (Hm s H) as [H1 [[tr1 [T1 N1]] E1]].
  destruct (m s) as [s1 [a|x]]; simpl in *.
  - destruct (Hk a s1 H1) as [H2 [[tr2 [T2 N2]] E2]]. split; [exact H2|]. split.
    + exists (tr1 ++ tr2). rewrite T2, T1, app_assoc. split; [reflexivity|].
      rewrite in_app_iff. tauto.
    + exact E2.
  - split; [exact H1|]. split; [exists tr1; split; assumption|].
    intros y Hy. injection Hy as <-. apply E1. reflexivity.
Qed.

Lemma Before_foldM {A B} (f : B -> A -> M B) (acc : B) (l : list A) :
  (forall b x, Before (f b x)) -> Before (foldM f acc l).
Proof.
  intros Hf. revert acc. induction l as [|x l IH]; intros acc; simpl.
  - apply Before_ret.
  - apply Before_bind; [apply Hf | intros; apply IH].
Qed.

Lemma Before_collect_tests listing glob_match exclude_pattern search :
  Before (collect_tests listing glob_match exclude_pattern search).
Proof.
  unfold collect_tests. apply Before_foldM. intros tests en. unfold collect_tests_step.
  apply Before_bind; [apply Before_act; discriminate|intros _].
  destruct (negb en.2); [apply Before_ret|].
  destruct (String.eqb exclude_pattern ""); [apply Before_ret|].
  destruct (search en.1) as [[]|]; try apply Before_ret.
  apply Before_bind; [apply Before_act; discriminate|intros _]. apply Before_sys_exit1.
Qed.

(** After a [Before] step, the program either goes on or has failed with
    status 1 and no result directory. *)
Lemma Before_then {A B} (m : M A) (k : A -> M B) (s : state)
    (Q : state * res B -> Prop) :
  Before m -> st_sig s = NoSignal -> ~ In EMkdir (st_trace s) ->
  (forall x s1, ~ In EMkdir (st_trace s1) -> exit_status (Err (A := unit) x) = 1 ->
                Q (s1, Err x)) ->
  (forall a s1, st_sig s1 = NoSignal -> ~ In EMkdir (st_trace s1) -> Q (k a s1)) ->
  Q (bind m k s).
Proof.
  intros Hm Hs Hn Herr Hok. unfold bind. destruct (Hm s Hs) as [H1 [[tr1 [T1 N1]] E1]].
  assert (Hn1 : ~ In EMkdir (st_trace (fst (m s)))).
  { rewrite T1, in_app_iff. tauto. }
  destruct (m s) as [s1 [a|x]]; simpl in *.
  - apply Hok; assumption.
  - apply Herr; [exact Hn1|]. apply E1. reflexivity.
Qed.

Lemma Before_quiet (r : osres unit) : Before (quiet r).
Proof.
  intros [rg sg tr] H. simpl in H. subst sg. split; [destruct r; reflexivity|]. split.
  - exists []. rewrite app_nil_r. split; [destruct r; reflexivity|intros []].
  - intros x Hx. destruct r as [v|c m]; simpl in Hx; [discriminate|].
    injection Hx as <-. reflexivity.
Qed.

Lemma main_full_shape (p : parsed) (e : menv) (fs : fsenv) (s : state) :
  st_sig s = NoSignal -> ~ In EMkdir (st_trace s) ->
  (In EMkdir (st_trace (fst (main_full p e fs s))) /\
   last (st_trace (fst (main_full p e fs s))) = Some ERmtree) \/
  (~ In EMkdir (st_trace (fst (main_full p e fs s))) /\
   exit_status (snd (main_full p e fs s)) = early_status p).
Proof.
  intros Hs Hn. destruct p as [a| |]; unfold main_full.
  2, 3: destruct s as [rg sg tr]; simpl in Hs; subst sg; unfold bind; rewrite act_nosig;
        cbn; right; split; [rewrite in_app_iff; intros [H|[H|[]]]; [exact (Hn H)|discriminate]
                           |reflexivity].
  set (Q := fun p : state * res unit =>
              (In EMkdir (st_trace (fst p)) /\ last (st_trace (fst p)) = Some ERmtree) \/
              (~ In EMkdir (st_trace (fst p)) /\ exit_status (snd p) = early_status (Parsed a))).
  match goal with |- ?G => change (Q (main_full (Parsed a) e fs s)) end.
  unfold main_full.
  assert (Herr : forall x s1, ~ In EMkdir (st_trace s1) ->
                   exit_status (Err (A := unit) x) = 1 -> Q (s1, Err x)).
  { intros x s1 Hn1 Hx. right. split; assumption. }
  assert (Hexit : forall s1, ~ In EMkdir (st_trace s1) -> Q (sys_exit 1 s1)).
  { intros s1 Hn1. right. split; [exact Hn1|reflexivity]. }
  destruct (m_riscv_dv_exists e); cbn [negb].
  2:{ eapply Before_then; [apply Before_act; discriminate|exact Hs|exact Hn|exact Herr|].
      intros _ s1 _ Hn1. apply Hexit, Hn1. }
  eapply (Before_then (A := unit)); [| exact Hs | exact Hn | exact Herr |].
  { destruct (a_gen_vector a); [|apply Before_ret].
    apply Before_bind; [apply Before_act; discriminate|intros _].
    destruct (m_gen_script_exists e);
      [apply Before_syscall|apply Before_act]; discriminate. }
  intros _ s1 Hs1 Hn1.
  destruct (m_binary_dir_exists e); cbn [negb].
  2:{ eapply Before_then; [apply Before_act; discriminate|exact Hs1|exact Hn1|exact Herr|].
      intros _ s2 _ Hn2. apply Hexit, Hn2. }
  apply (Before_then _ _ _ _ (Before_collect_tests _ _ _ _) Hs1 Hn1 Herr).
  intros tests s2 Hs2 Hn2. destruct tests as [|t ts].
  { eapply Before_then; [apply Before_act; discriminate|exact Hs2|exact Hn2|exact Herr|].
    intros _ s3 _ Hn3. apply Hexit, Hn3. }
  apply (Before_then _ _ _ _ (Before_quiet _) Hs2 Hn2 Herr). intros _ s3 Hs3 Hn3.
  apply (Before_then _ _ _ _ (Before_quiet _) Hs3 Hn3 Herr). intros _ s4 Hs4 Hn4.
  destruct s4 as [rg sg tr]. simpl in Hs4. subst sg.
  unfold bind at 1. cbv [emit]. cbn [st_registry st_sig st_trace]. cbv beta iota.
  set (body := (act (EPrint "RISC-V DV Parallel Test Runner") ;;; _)).
  assert (Hb : Ext body).
  { subst body. apply Ext_bind; [apply Ext_act|intros _].
    apply Ext_bind; [apply Ext_try_finally; [apply Ext_collect_loop|apply Ext_act]|].
    intros results. apply Ext_bind; [apply Ext_act|intros _].
    apply Ext_bind; [apply Ext_act|intros _]. apply Ext_report_and_exit. }
  clearbody body. left. unfold try_finally.
  destruct (Hb (St rg NoSignal (tr ++ [EMkdir])) eq_refl) as [H3 [tr3 T3]].
  destruct (body (St rg NoSignal (tr ++ [EMkdir]))) as [[rg3 sg3 tr3'] r3]. simpl in *.
  subst sg3 tr3'. rewrite act_nosig. simpl. split.
  - rewrite !in_app_iff. left. left. right. left. reflexivity.
  - apply last_snoc.
Qed.

(** X5: without SIGINT/SIGTERM, [main] either stops before it creates
    the temporary result directory, with argparse's status for [--help]
    (0) or a bad option (2) and with status 1 otherwise (riscv-dv or the
    binary directory missing, test generation failing, an invalid
    exclusion pattern met, no test found, [log_dir.mkdir] or [mkdtemp]
    raising), or it creates the directory and its very last action is
    to remove it, whatever happens in between (a worker's exception, a
    [SystemExit] out of a future, a failing comparison step). *)
Theorem main_removes_result_dir (p : parsed) (e : menv) (fs : fsenv) :
  let r := main_full p e fs (St [] NoSignal []) in
  (In EMkdir (st_trace (fst r)) /\ last (st_trace (fst r)) = Some ERmtree) \/
  (~ In EMkdir (st_trace (fst r)) /\ exit_status (snd r) = early_status p).
Proof. apply main_full_shape; [reflexivity | intros []]. Qed.

End CleanupFacts.

(* ------------------------------------------------------------------ *)
(** ** [compare_all.py] *)
(* ------------------------------------------------------------------ *)
Module CompareAllFacts.
Import Text Py Worker CompareAll CompareReading WorkerFacts.

Lemma act_ns (ev : event) (r : list Z) (tr : list event) :
  act ev (St r NoSignal tr) = (St r NoSignal (tr ++ [ev]), Ok tt).
Proof. reflexivity. Qed.

Lemma string_app_same_length (a b x y : string) :
  String.length a = String.length b -> (a ++ x)%string = (b ++ y)%string -> a = b.
Proof.
  revert b. induction a as [|c a IH]; intros [|d b] Hl H; simpl in *;
    try discriminate; [reflexivity|].
  injection H as -> H. f_equal. apply IH; [lia|exact H].
Qed.

Lemma compare_cmd_inj (a b : string) : compare_cmd a = compare_cmd b -> a = b.
Proof.
  unfold compare_cmd. intros H.
  assert (Hl := f_equal String.length H). rewrite !string_length_app in Hl.
  simpl in H. repeat (injection H as H). simpl in Hl. cbn [append] in H.
  eapply (string_app_same_length a b); [lia|exact H].
Qed.

Lemma compare_test_step (e : cenv) (results : list (string * bool * reason))
    (p f : Z) (obj : string) (rg : list Z) (tr : list event) :
  exists tr' rsn,
    compare_test e (results, p, f) obj (St rg NoSignal tr)
    = (St rg NoSignal (tr ++ tr'),
       Ok (results ++ [(stem obj, comparison_passes e (stem obj), rsn)],
           if comparison_passes e (stem obj) then p + 1 else p,
           if comparison_passes e (stem obj) then f else f + 1)) /\
    (forall n, In (ERun (compare_cmd n)) tr' ->
       n = stem obj /\ c_rocket_exists e n = true /\ c_spike_exists e n = true).
Proof.
  unfold compare_test, comparison_passes.
  destruct (c_rocket_exists e (stem obj)) eqn:Hr; simpl negb; cbv iota.
  2:{ exists [], RRocketMissing. rewrite app_nil_r. split; [reflexivity|intros n []]. }
  destruct (c_spike_exists e (stem obj)) eqn:Hs; simpl negb; cbv iota.
  2:{ exists [], RSpikeMissing. rewrite app_nil_r. split; [reflexivity|intros n []]. }
  assert (Hrun : forall n, In (ERun (compare_cmd n))
                   [EOpen ("compare_" ++ stem obj ++ ".log"); ERun (compare_cmd (stem obj))] ->
                 n = stem obj /\ c_rocket_exists e n = true /\ c_spike_exists e n = true).
  { intros n [H|[H|[]]]; [discriminate|].
    assert (Hc : compare_cmd (stem obj) = compare_cmd n) by congruence.
    apply compare_cmd_inj in Hc. subst n. auto. }
  destruct (c_open_w e (stem obj)) as [u|c m];
  [destruct (c_run e (stem obj)) as [z|c m];
   [destruct (c_read e (stem obj)) as [content|c m]|]|];
  cbv [try_except2 syscall prim act tick emit bind lift of_os ret is_TimeoutExpired is_Exception];
  simpl.
  - destruct (contains "PASSED" content); simpl.
    + eexists [_; _; _; _], _. rewrite <- !app_assoc. split; [reflexivity|].
      intros n Hn. apply Hrun. simpl in Hn |- *. intuition discriminate.
    + eexists [_; _; _; _], _. rewrite <- !app_assoc. split; [reflexivity|].
      intros n Hn. apply Hrun. simpl in Hn |- *. intuition discriminate.
  - destruct (String.eqb c "TimeoutExpired"); simpl;
      eexists [_; _; _; _], _; rewrite <- !app_assoc; (split; [reflexivity|]);
      intros n Hn; apply Hrun; simpl in Hn |- *; intuition discriminate.
  - destruct (String.eqb c "TimeoutExpired"); simpl;
      eexists [_; _; _], _; rewrite <- !app_assoc; (split; [reflexivity|]);
      intros n Hn; apply Hrun; simpl in Hn |- *; intuition discriminate.
  - destruct (String.eqb c "TimeoutExpired"); simpl;
      eexists [_; _], _; rewrite <- !app_assoc; (split; [reflexivity|]);
      intros n Hn; apply Hrun; simpl in Hn |- *; intuition discriminate.
Qed.

Lemma compare_fold (e : cenv) (l : list string) :
  forall results p f rg tr,
  exists tr' results',
    foldM (compare_test e) (results, p, f) l (St rg NoSignal tr)
    = (St rg NoSignal (tr ++ tr'),
       Ok (results',
           p + Z.of_nat (List.length (List.filter (fun o => comparison_passes e (stem o)) l)),
           f + Z.of_nat (List.length
                           (List.filter (fun o => negb (comparison_passes e (stem o))) l)))) /\
    (forall n, In (ERun (compare_cmd n)) tr' ->
       exists o, In o l /\ n = stem o /\ c_rocket_exists e n = true /\
                 c_spike_exists e n = true).
Proof.
  induction l as [|o l IH]; intros results p f rg tr.
  - exists [], results. rewrite app_nil_r, !Z.add_0_r. split; [reflexivity|intros n []].
  - cbn [foldM]. unfold bind at 1.
    destruct (compare_test_step e results p f o rg tr) as [tr1 [rsn [H1 R1]]].
    rewrite H1.
    set (b := comparison_passes e (stem o)).
    destruct (IH (results ++ [(stem o, b, rsn)]) (if b then p + 1 else p)
                 (if b then f else f + 1) rg (tr ++ tr1)) as [tr2 [res2 [H2 R2]]].
    exists (tr1 ++ tr2), res2. rewrite H2, <- app_assoc. split.
    + cbn [List.filter]. fold b. destruct b; cbn [negb List.length];
        match goal with
        | |- (_, Ok (_, ?a, ?b)) = (_, Ok (_, ?a', ?b')) =>
            replace a' with a by lia; replace b' with b by lia; reflexivity
        end.
    + intros n Hn. apply in_app_iff in Hn as [Hn|Hn].
      * destruct (R1 n Hn) as (-> & Hr & Hs). exists o. split; [left; reflexivity|auto].
      * destruct (R2 n Hn) as (o' & Ho' & Rest). exists o'. split; [right; exact Ho'|exact Rest].
Qed.

Lemma print_failed_ok (results : list (string * bool * reason)) (rg : list Z) (tr : list event) :
  exists tr', print_failed results (St rg NoSignal tr) = (St rg NoSignal (tr ++ tr'), Ok tt) /\
              forall c, ~ In (ERun c) tr'.
Proof.
  unfold print_failed. revert tr.
  induction results as [|[[n passed] rsn] results IH]; intros tr; cbn [foldM].
  - exists []. rewrite app_nil_r. split; [reflexivity|intros c []].
  - unfold bind at 1. destruct passed; cbn -[foldM].
    + destruct (IH tr) as [tr' [H R]]. exists tr'. split; [exact H|exact R].
    + destruct (IH (tr ++ [EPrint ("  - " ++ n)])) as [tr' [H R]].
      exists (EPrint ("  - " ++ n) :: tr'). rewrite H, <- app_assoc. split; [reflexivity|].
      intros c [Hc|Hc]; [discriminate|exact (R c Hc)].
Qed.

Lemma in_objects (listing : list string) (o : string) :
  In o (merge_sort str_le (filter (fun n => glob_o n) listing))
  <-> In o listing /\ glob_o o = true.
Proof.
  rewrite <- !list_elem_of_In.
  rewrite (merge_sort_Permutation str_le (filter (fun n => glob_o n) listing)).
  rewrite list_elem_of_filter, Is_true_true. tauto.
Qed.

Lemma compare_all_main_run (argv : list string) (e : cenv) (rg : list Z) (tr : list event) :
  List.length argv = 3%nat -> c_asm_exists e = true -> c_log_exists e = true ->
  c_compare_exists e = true ->
  (exists o, In o (c_listing e) /\ glob_o o = true) ->
  exists tr',
    compare_all_main argv e (St rg NoSignal tr)
    = (St rg NoSignal (tr ++ tr'),
       Err (SysExit (if Z.of_nat (List.length
              (List.filter (fun o => negb (comparison_passes e (stem o)))
                 (merge_sort str_le (filter (fun n => glob_o n) (c_listing e))))) =? 0
                     then 0 else 1))) /\
    (forall n, In (ERun (compare_cmd n)) tr' ->
       exists o, In o (c_listing e) /\ glob_o o = true /\ n = stem o /\
                 c_rocket_exists e n = true /\ c_spike_exists e n = true).
Proof.
  intros Hlen Ha Hl Hc [o0 [Ho0 Hg0]]. unfold compare_all_main.
  rewrite Hlen, Ha, Hl, Hc. cbn [Nat.eqb negb].
  set (objs := merge_sort str_le (filter (fun n => glob_o n) (c_listing e))).
  assert (Hobj : forall o, In o objs <-> In o (c_listing e) /\ glob_o o = true)
    by (intros o; apply in_objects).
  destruct objs as [|o1 objs'] eqn:Eo.
  { exfalso. apply (proj2 (Hobj o0)). split; assumption. }
  rewrite <- Eo. rewrite <- Eo in Hobj. unfold bind at 1. rewrite act_ns. cbv beta iota.
  destruct (compare_fold e objs [] 0 0 rg (tr ++ [EPrint "Found tests to compare"]))
    as [tr1 [res1 [H1 R1]]].
  unfold bind at 1. rewrite H1. cbv beta iota.
  set (fc := 0 + Z.of_nat _).
  unfold bind at 1. rewrite act_ns. cbv beta iota.
  assert (Hfc : fc = Z.of_nat (List.length
                  (List.filter (fun o => negb (comparison_passes e (stem o))) objs)))
    by (subst fc; lia).
  assert (Hrun : forall n, In (ERun (compare_cmd n)) tr1 ->
            exists o, In o (c_listing e) /\ glob_o o = true /\ n = stem o /\
                      c_rocket_exists e n = true /\ c_spike_exists e n = true).
  { intros n Hn. destruct (R1 n Hn) as (o & Ho & Rest). exists o.
    apply Hobj in Ho as [Ho Hg]. auto. }
  destruct (0 <? fc).
  - unfold bind. cbv beta. rewrite act_ns. cbv beta iota.
    destruct (print_failed_ok res1 rg
                ((((tr ++ [EPrint "Found tests to compare"]) ++ tr1) ++ [EPrint "Summary"])
                 ++ [EPrint "Failed tests:"])) as [tr2 [H2 R2]].
    rewrite H2. cbv beta iota.
    eexists. split.
    + rewrite <- !app_assoc. rewrite Hfc. reflexivity.
    + intros n Hn. rewrite !in_app_iff in Hn. cbn in Hn.
      destruct Hn as [[Hn|[]]|[Hn|[[Hn|[]]|[[Hn|[]]|Hn]]]];
        [discriminate|exact (Hrun n Hn)|discriminate|discriminate|exfalso; exact (R2 _ Hn)].
  - unfold bind at 1. cbv [ret]. cbv beta iota.
    eexists. split.
    + rewrite <- !app_assoc. rewrite Hfc. reflexivity.
    + intros n Hn. rewrite !in_app_iff in Hn. cbn in Hn.
      destruct Hn as [[Hn|[]]|[Hn|[Hn|[]]]]; [discriminate|exact (Hrun n Hn)|discriminate].
Qed.

Lemma filter_glob_nil (l : list string) :
  (forall o, In o l -> glob_o o = false) -> filter (fun n => glob_o n) l = [].
Proof.
  intros H. destruct (filter (fun n => glob_o n) l) as [|o l'] eqn:E; [reflexivity|].
  exfalso. assert (Ho : o ∈ filter (fun n => glob_o n) l)
    by (rewrite E; apply list_elem_of_In; left; reflexivity).
  apply list_elem_of_filter in Ho as [Hg Ho]. apply list_elem_of_In in Ho.
  rewrite (H o Ho) in Hg. exact Hg.
Qed.

Lemma filter_length_zero {A} (f : A -> bool) (l : list A) :
  List.length (List.filter f l) = 0%nat <-> forall x, In x l -> f x = false.
Proof.
  rewrite length_zero_iff_nil. split.
  - intros H x Hx. destruct (f x) eqn:Ef; [|reflexivity].
    assert (Hin : In x (List.filter f l)) by (apply filter_In; auto).
    rewrite H in Hin. destruct Hin.
  - intros H. destruct (List.filter f l) as [|x l'] eqn:E; [reflexivity|].
    assert (Hin : In x (List.filter f l)) by (rewrite E; left; reflexivity).
    apply filter_In in Hin as [Hx Hf]. rewrite (H x Hx) in Hf. discriminate.
Qed.

Lemma compare_all_early (argv : list string) (e : cenv) (rg : list Z) (tr : list event) :
  setup_ok argv e = false \/ (forall o, In o (c_listing e) -> glob_o o = false) ->
  exists tr',
    compare_all_main argv e (St rg NoSignal tr)
    = (St rg NoSignal (tr ++ tr'), Err (SysExit (if setup_ok argv e then 0 else 1))) /\
    forall c, ~ In (ERun c) tr'.
Proof.
  intros H. unfold compare_all_main. unfold setup_ok in *.
  destruct (Nat.eqb (List.length argv) 3); cbn [negb andb] in *;
    [destruct (c_asm_exists e); cbn [negb andb] in *;
     [destruct (c_log_exists e); cbn [negb andb] in *;
      [destruct (c_compare_exists e); cbn [negb andb] in *|]|]|].
  - destruct H as [H|H]; [discriminate|].
    rewrite (filter_glob_nil _ H).
    change (merge_sort str_le []) with (@nil string).
    cbv [bind act tick emit sys_exit raise]. cbn -[app].
    first [exists []; rewrite app_nil_r; split; [reflexivity|] |
           eexists; split; [rewrite <- ?app_assoc; reflexivity|]].
    intros c Hc; cbn in Hc; intuition discriminate.
  - cbv [bind act tick emit sys_exit raise]. cbn -[app].
    first [exists []; rewrite app_nil_r; split; [reflexivity|] |
           eexists; split; [rewrite <- ?app_assoc; reflexivity|]]. intros c Hc; cbn in Hc; intuition discriminate.
  - cbv [bind act tick emit sys_exit raise]. cbn -[app].
    first [exists []; rewrite app_nil_r; split; [reflexivity|] |
           eexists; split; [rewrite <- ?app_assoc; reflexivity|]]. intros c Hc; cbn in Hc; intuition discriminate.
  - cbv [bind act tick emit sys_exit raise]. cbn -[app].
    first [exists []; rewrite app_nil_r; split; [reflexivity|] |
           eexists; split; [rewrite <- ?app_assoc; reflexivity|]]. intros c Hc; cbn in Hc; intuition discriminate.
  - cbv [bind act tick emit sys_exit raise]. cbn -[app].
    first [exists []; rewrite app_nil_r; split; [reflexivity|] |
           eexists; split; [rewrite <- ?app_assoc; reflexivity|]].
    intros c Hc; cbn in Hc; intuition discriminate.
Qed.

Lemma bind_ext {A B} (m m' : M A) (k k' : A -> M B) (s : state) :
  (forall s, m s = m' s) -> (forall a s, k a s = k' a s) -> bind m k s = bind m' k' s.
Proof.
  intros Hm Hk. unfold bind. rewrite Hm. destruct (m' s) as [s1 [a|x]]; [apply Hk|reflexivity].
Qed.

Lemma foldM_ext {A B} (f g : A -> B -> M A) :
  (forall a x s, f a x s = g a x s) -> forall l a s, foldM f a l s = foldM g a l s.
Proof.
  intros H l. induction l as [|x l IH]; intros a s; cbn [foldM]; [reflexivity|].
  apply bind_ext; [apply H|intros a' s'; apply IH].
Qed.

Lemma try_except2_ext {A} (m m' : M A) c1 h1 c2 h2 (s : state) :
  (forall s, m s = m' s) -> try_except2 m c1 h1 c2 h2 s = try_except2 m' c1 h1 c2 h2 s.
Proof. intros H. unfold try_except2. rewrite H. reflexivity. Qed.

Lemma compare_test_zero_status (e : cenv) (t : tally) (obj : string) (s : state) :
  compare_test e t obj s = compare_test (with_zero_status e) t obj s.
Proof.
  destruct t as [[results p] f]. unfold compare_test, with_zero_status.
  cbn [c_rocket_exists c_spike_exists c_open_w c_run c_read].
  destruct (c_rocket_exists e (stem obj)), (c_spike_exists e (stem obj)); cbn [negb];
    try reflexivity.
  apply try_except2_ext. intros s1.
  apply bind_ext; [reflexivity|]. intros _ s2.
  cbv beta delta [bind syscall prim lift of_os].
  destruct (act (ERun (compare_cmd (stem obj))) s2) as [s3 [[]|x]];
    [destruct (c_run e (stem obj)); reflexivity|reflexivity].
Qed.

(** X6: [compare_all.py] exits with status 0 exactly when every [.o]
    file of the assembly directory has its comparison passing (both logs
    present, [compare.py] completing within the timeout and its log
    containing "PASSED"), and with status 1 otherwise, once the setup
    checks succeed and at least one [.o] file exists. *)
Theorem compare_all_exit_status (argv : list string) (e : cenv)
    (Hsetup : setup_ok argv e = true)
    (Hobj : exists o, In o (c_listing e) /\ glob_o o = true) :
  let r := snd (compare_all_main argv e (St [] NoSignal [])) in
  (exit_status r = 0 <->
   forall o, In o (c_listing e) -> glob_o o = true -> comparison_passes e (stem o) = true) /\
  (exit_status r = 0 \/ exit_status r = 1).
Proof.
  unfold setup_ok in Hsetup. apply andb_prop in Hsetup as [Hsetup Hc].
  apply andb_prop in Hsetup as [Hsetup Hl]. apply andb_prop in Hsetup as [Hlen Ha].
  apply Nat.eqb_eq in Hlen.
  destruct (compare_all_main_run argv e [] [] Hlen Ha Hl Hc Hobj) as [tr' [H _]].
  cbv zeta. rewrite H. cbn [snd exit_status].
  set (objs := merge_sort str_le (filter (fun n => glob_o n) (c_listing e))).
  assert (Hiff : List.length (List.filter (fun o => negb (comparison_passes e (stem o))) objs)
                 = 0%nat <->
                 forall o, In o (c_listing e) -> glob_o o = true ->
                           comparison_passes e (stem o) = true).
  { rewrite filter_length_zero. split.
    - intros Hz o Ho Hg. apply negb_false_iff, Hz, in_objects. auto.
    - intros Hall o Ho. apply in_objects in Ho as [Ho Hg].
      apply negb_false_iff, Hall; assumption. }
  destruct (List.length (List.filter _ objs)) as [|k] eqn:Ek.
  - cbn. split; [split; [intros _; apply Hiff; reflexivity|reflexivity]|left; reflexivity].
  - assert (Hk : (Z.of_nat (S k) =? 0) = false) by (apply Z.eqb_neq; lia).
    rewrite Hk. split; [|right; reflexivity].
    split; [discriminate|intros Hall; apply Hiff in Hall; discriminate].
Qed.

Lemma compare_all_exit_status_witness :
  let e := CEnv true true true ["t1.o"; "t2.o"; "README"] (fun _ => true)
                (fun n => negb (String.eqb n "t2")) (fun _ => Done tt)
                (fun _ => Done 1) (fun _ => Done "PASSED") in
  let argv := ["compare_all.py"; "asm"; "log"] in
  setup_ok argv e = true /\ (exists o, In o (c_listing e) /\ glob_o o = true) /\
  let r := snd (compare_all_main argv e (St [] NoSignal [])) in
  (exit_status r = 0 <->
   forall o, In o (c_listing e) -> glob_o o = true -> comparison_passes e (stem o) = true) /\
  (exit_status r = 0 \/ exit_status r = 1).
Proof.
  intros e argv.
  assert (H1 : setup_ok argv e = true) by reflexivity.
  assert (H2 : exists o, In o (c_listing e) /\ glob_o o = true)
    by (exists "t1.o"; split; [left; reflexivity|reflexivity]).
  split; [exact H1|split; [exact H2|exact (compare_all_exit_status argv e H1 H2)]].
Defined.

(** X7: when an argument is missing, a directory or [compare.py] is
    absent, or the assembly directory holds no [.o] file, [compare_all.py]
    runs no comparison and exits with status 1, or 0 in the last case. *)
Theorem compare_all_early_exit (argv : list string) (e : cenv) (rg : list Z) (tr : list event)
    (H : setup_ok argv e = false \/ (forall o, In o (c_listing e) -> glob_o o = false)) :
  exists tr',
    compare_all_main argv e (St rg NoSignal tr)
    = (St rg NoSignal (tr ++ tr'), Err (SysExit (if setup_ok argv e then 0 else 1))) /\
    forall c, ~ In (ERun c) tr'.
Proof. exact (compare_all_early argv e rg tr H). Qed.

Lemma compare_all_early_exit_witness :
  let e := CEnv true true true ["README"; "t1.s"] (fun _ => true) (fun _ => true)
                (fun _ => Done tt) (fun _ => Done 0) (fun _ => Done "PASSED") in
  let argv := ["compare_all.py"; "asm"; "log"] in
  (forall o, In o (c_listing e) -> glob_o o = false) /\
  exists tr',
    compare_all_main argv e (St [] NoSignal [])
    = (St [] NoSignal ([] ++ tr'), Err (SysExit (if setup_ok argv e then 0 else 1))) /\
    forall c, ~ In (ERun c) tr'.
Proof.
  intros e argv.
  assert (H : forall o, In o (c_listing e) -> glob_o o = false)
    by (intros o [Ho|[Ho|[]]]; subst o; reflexivity).
  split; [exact H|exact (compare_all_early_exit argv e [] [] (or_intror H))].
Defined.

(** X8: [compare.py] is only ever run for the stem of a [.o] file of
    the assembly directory whose Rocket and Spike logs both exist. *)
Theorem compare_all_runs_only_complete_tests (argv : list string) (e : cenv) (n : string)
    (Hrun : In (ERun (compare_cmd n)) (st_trace (fst (compare_all_main argv e (St [] NoSignal []))))) :
  exists o, In o (c_listing e) /\ glob_o o = true /\ n = stem o /\
            c_rocket_exists e n = true /\ c_spike_exists e n = true.
Proof.
  destruct (existsb glob_o (c_listing e)) eqn:Ex.
  - apply existsb_exists in Ex.
    destruct (setup_ok argv e) eqn:Es.
    + unfold setup_ok in Es. apply andb_prop in Es as [Es Hc].
      apply andb_prop in Es as [Es Hl]. apply andb_prop in Es as [Hlen Ha].
      apply Nat.eqb_eq in Hlen.
      destruct (compare_all_main_run argv e [] [] Hlen Ha Hl Hc Ex) as [tr' [H R]].
      rewrite H in Hrun. exact (R n Hrun).
    + destruct (compare_all_early argv e [] [] (or_introl Es)) as [tr' [H R]].
      rewrite H in Hrun. destruct (R _ Hrun).
  - assert (Hno : forall o, In o (c_listing e) -> glob_o o = false).
    { intros o Ho. destruct (glob_o o) eqn:G; [|reflexivity].
      rewrite (proj2 (existsb_exists _ _) (ex_intro _ o (conj Ho G))) in Ex. discriminate. }
    destruct (compare_all_early argv e [] [] (or_intror Hno)) as [tr' [H R]].
    rewrite H in Hrun. destruct (R _ Hrun).
Qed.

Lemma compare_all_runs_only_complete_tests_witness :
  let e := CEnv true true true ["t1.o"; "t2.o"] (fun _ => true)
                (fun n => negb (String.eqb n "t2")) (fun _ => Done tt)
                (fun _ => Done 0) (fun _ => Done "PASSED") in
  let argv := ["compare_all.py"; "asm"; "log"] in
  In (ERun (compare_cmd "t1")) (st_trace (fst (compare_all_main argv e (St [] NoSignal [])))) /\
  exists o, In o (c_listing e) /\ glob_o o = true /\ "t1" = stem o /\
            c_rocket_exists e "t1" = true /\ c_spike_exists e "t1" = true.
Proof.
  intros e argv.
  assert (H : In (ERun (compare_cmd "t1"))
                 (st_trace (fst (compare_all_main argv e (St [] NoSignal []))))).
  { vm_compute. repeat first [left; reflexivity | right]. }
  split; [exact H|exact (compare_all_runs_only_complete_tests argv e "t1" H)].
Defined.

(** X9: the exit status of [compare.py] is never looked at: replacing the
    status of every completed run by 0 changes nothing in the behaviour
    of [compare_all.py]. *)
Theorem compare_all_ignores_return_code (argv : list string) (e : cenv) (s : state) :
  compare_all_main argv e s = compare_all_main argv (with_zero_status e) s.
Proof.
  unfold compare_all_main.
  change (c_asm_exists (with_zero_status e)) with (c_asm_exists e).
  change (c_log_exists (with_zero_status e)) with (c_log_exists e).
  change (c_compare_exists (with_zero_status e)) with (c_compare_exists e).
  change (c_listing (with_zero_status e)) with (c_listing e).
  destruct (negb (Nat.eqb (List.length argv) 3)); [reflexivity|].
  destruct (negb (c_asm_exists e)); [reflexivity|].
  destruct (negb (c_log_exists e)); [reflexivity|].
  destruct (negb (c_compare_exists e)); [reflexivity|].
  destruct (merge_sort str_le (filter (fun n => glob_o n) (c_listing e))) as [|o objs];
    [reflexivity|].
  apply bind_ext; [reflexivity|]. intros _ s1.
  apply bind_ext; [|reflexivity].
  intros s2. apply foldM_ext. intros t x s3. apply compare_test_zero_status.
Qed.

End CompareAllFacts.

Module ComparePyFacts.
Import Py ComparePy.






End ComparePyFacts.
